(** * trmnl-display: frame conversion and refresh cycle of [trmnl-spi.go]

    A shallow embedding of the Go program that polls the TRMNL service,
    converts the downloaded picture to a 1-bit frame and writes it to a
    Waveshare 7.5 inch V2 e-paper panel.

    Go integers are rendered as [Z] with their wrap-around written out,
    byte slices as [list Z] with stdpp's lookup and insert (an index out of
    range is a Go panic), the float64 index of the resize library as
    binary64 primitive floats, and the calls into the operating system, the
    network and the panel driver as an event trace over a table of
    outcomes. *)

From Stdlib Require Import ZArith Lia String.
From Stdlib Require Import Ascii.
From Stdlib Require Floats.PrimFloat Floats.SpecFloat Floats.FloatOps.
From stdpp Require Import base option list strings pretty.

Local Open Scope Z_scope.

(** ** Fixed-width integers *)

Definition u8 (n : Z) : Z := n mod 2 ^ 8.
Definition u32 (n : Z) : Z := n mod 2 ^ 32.
(** Go's [int] on a 64-bit target and [int64] (so [time.Duration]). *)
Definition i64 (n : Z) : Z := (n + 2 ^ 63) mod 2 ^ 64 - 2 ^ 63.

Definition in_i64 (n : Z) : bool := (- 2 ^ 63 <=? n) && (n <? 2 ^ 63).

(** ** Program types and globals *)

Record TerminalResponse := {
  ImageURL : string;
  Filename : string;
  RefreshRate : Z
}.

Record AppOptions := {
  DarkMode : bool;
  Verbose : bool
}.

Record SPIConfig := {
  RSTPin : Z;
  DCPin : Z;
  CSPin : Z;
  BusyPin : Z;
  Width : Z;
  Height : Z
}.

Definition spiConfig : SPIConfig :=
  {| RSTPin := 17; DCPin := 25; CSPin := 8; BusyPin := 24;
     Width := 800; Height := 480 |}.

Definition version : string := "0.1.0".

(** ** Colours and images of Go's [image] package

    [color.NRGBA] holds four 8-bit channels, alpha not premultiplied. *)

Record NRGBA := { cR : Z; cG : Z; cB : Z; cA : Z }.

Definition black : NRGBA := {| cR := 0; cG := 0; cB := 0; cA := 255 |}.
Definition white : NRGBA := {| cR := 255; cG := 255; cB := 255; cA := 255 |}.
Definition transparent : NRGBA := {| cR := 0; cG := 0; cB := 0; cA := 0 |}.

(** One channel of [color.NRGBA.RGBA]: [r |= r << 8; r *= a; r /= 0xff]
    on [uint32]. *)
Definition expand (v a : Z) : Z :=
  u32 (Z.lor v (u32 (Z.shiftl v 8)) * a) ÷ 255.

(** [RGBA()]: the 16-bit, alpha-premultiplied channels. *)
Definition RGBA (c : NRGBA) : Z * Z * Z * Z :=
  (expand (cR c) (cA c), expand (cG c) (cA c), expand (cB c) (cA c),
   Z.lor (cA c) (u32 (Z.shiftl (cA c) 8))).

Definition wf_color (c : NRGBA) : Prop :=
  0 <= cR c < 256 /\ 0 <= cG c < 256 /\ 0 <= cB c < 256 /\ 0 <= cA c < 256.

(** An [image.Image] as the program sees one: its bounds, anchored at the
    origin, and the colour [At(x, y)]. *)
Record Image := {
  Dx : Z;
  Dy : Z;
  At : Z -> Z -> NRGBA
}.

Definition wf_image (img : Image) : Prop :=
  forall x y, 0 <= x < Dx img -> 0 <= y < Dy img -> wf_color (At img x y).

Definition uniform (c : NRGBA) (img : Image) : Prop :=
  forall x y, 0 <= x < Dx img -> 0 <= y < Dy img -> At img x y = c.

(** [image.Gray]: one byte per pixel, row after row, stride [gDx]. *)
Record Gray := {
  gDx : Z;
  gDy : Z;
  gPix : list Z
}.

Definition NewGray (w h : Z) : Gray :=
  {| gDx := w; gDy := h; gPix := replicate (Z.to_nat (w * h)) 0 |}.

Definition inBounds (m : Gray) (x y : Z) : bool :=
  (0 <=? x) && (x <? gDx m) && (0 <=? y) && (y <? gDy m).

Definition PixOffset (m : Gray) (x y : Z) : Z := y * gDx m + x.

(** [SetGray] leaves the image alone outside its bounds. *)
Definition SetGray (m : Gray) (x y : Z) (c : Z) : Gray :=
  if inBounds m x y
  then {| gDx := gDx m; gDy := gDy m;
          gPix := <[Z.to_nat (PixOffset m x y) := c]> (gPix m) |}
  else m.

(** [GrayAt(x, y).Y]; the zero colour outside the bounds. *)
Definition GrayAt (m : Gray) (x y : Z) : Z :=
  if inBounds m x y
  then default 0 (gPix m !! Z.to_nat (PixOffset m x y))
  else 0.

(** ** [imaging.Resize] with the [NearestNeighbor] filter

    The library is outside the repository. A source of the requested size
    is cloned; otherwise each target pixel takes the source pixel at
    [int((float64(x) + 0.5) * dx)] with [dx := float64(srcW) /
    float64(dstW)], computed as the library does in IEEE 754 binary64. *)

(** [float64(n)]: the nearest double, ties to even. *)
Definition float64_of_int (n : Z) : PrimFloat.float :=
  FloatOps.SF2Prim
    (SpecFloat.binary_normalize FloatOps.prec FloatOps.emax n 0 false).

(** [int(f)]: the fraction is dropped. Go leaves the result to the
    implementation when [f] is not finite; amd64 gives the least [int],
    taken here. The converter only gets there with values between 0 and
    the size of the source. *)
Definition int_of_float64 (f : PrimFloat.float) : Z :=
  match FloatOps.Prim2SF f with
  | SpecFloat.S754_zero _ => 0
  | SpecFloat.S754_finite s m e =>
      let v := if 0 <=? e then Z.pos m * 2 ^ e else Z.pos m / 2 ^ (- e) in
      if s then - v else v
  | SpecFloat.S754_infinity _ | SpecFloat.S754_nan => - 2 ^ 63
  end.

(** The constant 0.5. *)
Definition half : PrimFloat.float :=
  PrimFloat.div (float64_of_int 1) (float64_of_int 2).

(** The source index of target index [x], for the step [dx]. *)
Definition nearestIndex (x : Z) (dx : PrimFloat.float) : Z :=
  int_of_float64 (PrimFloat.mul (PrimFloat.add (float64_of_int x) half) dx).

Definition emptyImage : Image :=
  {| Dx := 0; Dy := 0; At := fun _ _ => transparent |}.

Definition resizeNearest (img : Image) (width height : Z) : Image :=
  let dx := PrimFloat.div (float64_of_int (Dx img)) (float64_of_int width) in
  let dy := PrimFloat.div (float64_of_int (Dy img)) (float64_of_int height) in
  {| Dx := width; Dy := height;
     At := fun x y => At img (nearestIndex x dx) (nearestIndex y dy) |}.

(** A target size of zero stands for "keep the aspect ratio":
    [int(math.Max(1.0, math.Floor(tmp + 0.5)))], where [tmp + 0.5] is
    positive, so that the floor is the truncation. *)
Definition aspect (other num den : Z) : Z :=
  let tmp := PrimFloat.div
               (PrimFloat.mul (float64_of_int other) (float64_of_int num))
               (float64_of_int den) in
  Z.max 1 (int_of_float64 (PrimFloat.add tmp half)).

Definition Resize (img : Image) (width height : Z) : Image :=
  if (width <? 0) || (height <? 0) then emptyImage
  else if (width =? 0) && (height =? 0) then emptyImage
  else if (Dx img <=? 0) || (Dy img <=? 0) then emptyImage
  else
    let dstW := if width =? 0 then aspect height (Dx img) (Dy img) else width in
    let dstH := if height =? 0 then aspect dstW (Dy img) (Dx img) else height in
    if (Dx img =? dstW) && (Dy img =? dstH) then img
    else resizeNearest img dstW dstH.

(** ** The frame converter of [displayImage] *)

(** The indices [0, 1, ..., n-1] of a counting loop. *)
Definition range (n : Z) : list Z := Z.of_nat <$> seq 0 (Z.to_nat n).

Definition threshold : Z := 128.

(** [uint8((r*299 + g*587 + b*114) / 1000 >> 8)] on [uint32] operands; in
    Go [/] and [>>] bind alike and associate to the left. *)
Definition luma (r g b : Z) : Z :=
  u8 (Z.shiftr (u32 (u32 (u32 (r * 299) + u32 (g * 587)) + u32 (b * 114)) ÷ 1000) 8).

Definition gray_of (c : NRGBA) : Z :=
  let '(r, g, b, _) := RGBA c in luma r g b.

(** The value stored by the inner [if]: 255 is white (paper), 0 is black
    (ink). *)
Definition monoValue (options : AppOptions) (gray : Z) : Z :=
  if DarkMode options
  then (if gray <? threshold then 255 else 0)
  else (if threshold <=? gray then 255 else 0).

Definition monoRow (options : AppOptions) (resizedImg : Image) (m : Gray) (y : Z) : Gray :=
  foldl (fun m x => SetGray m x y (monoValue options (gray_of (At resizedImg x y))))
        m (range (Dx resizedImg)).

Definition toMonochrome (options : AppOptions) (resizedImg : Image) : Gray :=
  foldl (monoRow options resizedImg)
        (NewGray (Dx resizedImg) (Dy resizedImg))
        (range (Dy resizedImg)).

(** A loop whose body may panic: [None] is the panic. *)
Fixpoint forM {S A : Type} (body : S -> A -> option S) (l : list A) (s : S) : option S :=
  match l with
  | [] => Some s
  | a :: l' => match body s a with
               | Some s' => forM body l' s'
               | None => None
               end
  end.

(** [buffer[bytePos] |= 1 << bitPos] when the pixel is black; the index
    expression panics out of range. *)
Definition packPixel (cfg : SPIConfig) (monoImg : Gray) (y : Z) (buffer : list Z) (x : Z)
  : option (list Z) :=
  if GrayAt monoImg x y =? 0 then
    let bytePos := (y * Width cfg + x) ÷ 8 in
    let bitPos := 7 - Z.rem x 8 in
    if bytePos <? 0 then None else
    match buffer !! Z.to_nat bytePos with
    | Some b => Some (<[Z.to_nat bytePos := Z.lor b (u8 (Z.shiftl 1 bitPos))]> buffer)
    | None => None
    end
  else Some buffer.

Definition packRow (cfg : SPIConfig) (monoImg : Gray) (buffer : list Z) (y : Z)
  : option (list Z) :=
  forM (packPixel cfg monoImg y) (range (Width cfg)) buffer.

Definition packFrame (cfg : SPIConfig) (monoImg : Gray) : option (list Z) :=
  forM (packRow cfg monoImg) (range (Height cfg))
       (replicate (Z.to_nat (Width cfg * Height cfg ÷ 8)) 0).

(** From the decoded picture to the buffer handed to [display.Display]. *)
Definition convert (options : AppOptions) (img : Image) : option (list Z) :=
  let resizedImg := Resize img (Width spiConfig) (Height spiConfig) in
  let monoImg := toMonochrome options resizedImg in
  packFrame spiConfig monoImg.

(** ** The refresh cycle: effects as a trace

    The calls that leave the process are recorded as events; what each of
    them answers is read from a [World]. Closing of bodies and files is not
    recorded. *)

Inductive outcome (A : Type) : Type :=
| Ok (a : A)
| Err (e : string)
| Panics (p : string).
Arguments Ok {A} a.
Arguments Err {A} e.
Arguments Panics {A} p.

(** [EvLog]: a line printed; [EvSleep d]: [time.Sleep] of [d] nanoseconds;
    [EvRequest url timeout]: a GET through a client whose [Timeout] is
    [timeout] nanoseconds, zero meaning none; [EvCreate], [EvCopy],
    [EvOpen], [EvDecode]: the file of the picture created, filled, opened
    and decoded; [EvDisplay buffer]: [display.Display(buffer)]. *)
Inductive event : Type :=
| EvLog (msg : string)
| EvSleep (d : Z)
| EvRequest (url : string) (timeout : Z)
| EvCreate (path : string)
| EvCopy (path : string)
| EvOpen (path : string)
| EvDecode (path : string)
| EvDisplay (buffer : list Z).

(** The JSON object of the service; a key may be missing. *)
Record TerminalJSON := {
  image_url : option string;
  filename : option string;
  refresh_rate : option Z
}.

(** What the outside answers: [http.NewRequest], [client.Do] with the
    status code, the body as JSON, [http.Get], [filepath.Join],
    [os.Create], [io.Copy], [os.Open], [image.Decode] and
    [display.Display]. *)
Record World := {
  newRequest : outcome unit;
  clientDo : outcome Z;
  responseBody : outcome TerminalJSON;
  httpGet : string -> outcome unit;
  pathJoin : string -> string -> string;
  osCreate : string -> outcome unit;
  ioCopy : outcome unit;
  osOpen : string -> outcome unit;
  imageDecode : outcome Image;
  panelDisplay : list Z -> outcome unit
}.

Inductive result (A : Type) : Type :=
| Done (a : A)
| Panicking (p : string).
Arguments Done {A} a.
Arguments Panicking {A} p.

(** A computation: how it ended and what it did. *)
Definition M (A : Type) : Type := result A * list event.

Definition ret {A} (a : A) : M A := (Done a, []).

Definition bind {A B} (m : M A) (k : A -> M B) : M B :=
  match m with
  | (Done a, t) => let '(r, t') := k a in (r, t ++ t')
  | (Panicking p, t) => (Panicking p, t)
  end.

Notation "'let*' x ':=' m 'in' k" := (bind m (fun x => k))
  (at level 10, x name, m at level 100, k at level 200).

Definition emit (e : event) : M unit := (Done tt, [e]).
Definition panic {A} (p : string) : M A := (Panicking p, []).

(** An outside call: the attempt is recorded, then its answer returned as
    value and error, or raised as a panic. *)
Definition call {A} (e : list event) (o : outcome A) : M (A + string) :=
  match o with
  | Ok a => (Done (inl a), e)
  | Err err => (Done (inr err), e)
  | Panics p => (Panicking p, e)
  end.

Definition nl : string := String (ascii_of_nat 10) EmptyString.
Definition dquote : string := String (ascii_of_nat 34) EmptyString.

Definition Printf (msg : string) : M unit := emit (EvLog msg).

(** [time.Second], in nanoseconds. *)
Definition Second : Z := 1000000000.

(** [time.Sleep(d)]; a duration that is not positive returns at once. *)
Definition Sleep (d : Z) : M unit := emit (EvSleep d).

(** The time a [Sleep(d)] pauses the loop, in nanoseconds. *)
Definition paused (d : Z) : Z := Z.max 0 d.

(** [json.Decoder.Decode] into a [TerminalResponse]: a missing key leaves
    the zero value, a number outside [int] is an error. *)
Definition decodeTerminal (j : TerminalJSON) : outcome TerminalResponse :=
  let rate := default 0 (refresh_rate j) in
  if in_i64 rate
  then Ok {| ImageURL := default EmptyString (image_url j);
             Filename := default EmptyString (filename j);
             RefreshRate := rate |}
  else Err ("json: cannot unmarshal number " +:+ pretty rate
            +:+ " into Go struct field TerminalResponse.refresh_rate of type int").

Definition Decode (w : World) : outcome TerminalResponse :=
  match responseBody w with
  | Ok j => decodeTerminal j
  | Err e => Err e
  | Panics p => Panics p
  end.

(** [displayImage]; the result is the returned [error], [None] for nil. *)
Definition displayImage (w : World) (imagePath : string) (options : AppOptions)
  : M (option string) :=
  let* file := call [EvOpen imagePath] (osOpen w imagePath) in
  match file with
  | inr err => ret (Some ("error opening image file: " +:+ err))
  | inl _ =>
    let* _ := (if Verbose options
               then Printf ("Reading image from " +:+ imagePath +:+ nl)
               else ret tt) in
    let* decoded := call [EvDecode imagePath] (imageDecode w) in
    match decoded with
    | inr err => ret (Some ("error decoding image: " +:+ err))
    | inl img =>
      match convert options img with
      | None => panic "runtime error: index out of range"
      | Some buffer =>
        let* shown := call [EvDisplay buffer] (panelDisplay w buffer) in
        match shown with
        | inr err =>
            ret (Some ("error displaying image on Waveshare EPD7in5_V2: " +:+ err))
        | inl _ =>
            let* _ := (if Verbose options
                       then Printf ("Image displayed on Waveshare 7.5" +:+ dquote
                                    +:+ " e-ink display" +:+ nl)
                       else ret tt) in
            ret None
        end
      end
    end
  end.

(** The fallback of lines 201-204. *)
Definition targetFilename (terminal : TerminalResponse) : string :=
  if String.eqb (Filename terminal) EmptyString then "display.jpg"
  else Filename terminal.

(** The seconds slept after a display, lines 237-240. *)
Definition refreshSeconds (terminal : TerminalResponse) : Z :=
  if RefreshRate terminal <=? 0 then 60 else RefreshRate terminal.

(** Every failing branch: print, [time.Sleep(60 * time.Second)], return. *)
Definition cooldown (msg : string) : M unit :=
  let* _ := Printf msg in Sleep (i64 (60 * Second)).

Definition endpoint : string := "https://usetrmnl.com/api/display".

(** The body of [processNextImage], before its deferred function. The
    metadata request goes through [http.Client{Timeout: 30 * time.Second}],
    the picture through [http.Get], that is [http.DefaultClient], whose
    [Timeout] is zero: no timeout. *)
Definition processNextImage_body (w : World) (tmpDir apiKey : string) (options : AppOptions)
  : M unit :=
  let* req := call [] (newRequest w) in
  match req with
  | inr err => cooldown ("Error creating request: " +:+ err +:+ nl)
  | inl _ =>
    let* resp := call [EvRequest endpoint (i64 (30 * Second))] (clientDo w) in
    match resp with
    | inr err => cooldown ("Error fetching display: " +:+ err +:+ nl)
    | inl StatusCode =>
      if negb (StatusCode =? 200)
      then cooldown ("Error fetching display: status code " +:+ pretty StatusCode +:+ nl)
      else
        let* parsed := call [] (Decode w) in
        match parsed with
        | inr err => cooldown ("Error parsing JSON: " +:+ err +:+ nl)
        | inl terminal =>
          let filePath := pathJoin w tmpDir (targetFilename terminal) in
          let* imgResp := call [EvRequest (ImageURL terminal) 0] (httpGet w (ImageURL terminal)) in
          match imgResp with
          | inr err => cooldown ("Error downloading image: " +:+ err +:+ nl)
          | inl _ =>
            let* out := call [EvCreate filePath] (osCreate w filePath) in
            match out with
            | inr err => cooldown ("Error creating file: " +:+ err +:+ nl)
            | inl _ =>
              let* copied := call [EvCopy filePath] (ioCopy w) in
              match copied with
              | inr err => cooldown ("Error saving image: " +:+ err +:+ nl)
              | inl _ =>
                let* shown := displayImage w filePath options in
                match shown with
                | Some err => cooldown ("Error displaying image: " +:+ err +:+ nl)
                | None =>
                    Sleep (i64 (i64 (refreshSeconds terminal) * Second))
                end
              end
            end
          end
        end
    end
  end.

(** [processNextImage]: the deferred function recovers a panic of the body,
    prints it and sleeps 60 seconds; the call then returns normally. *)
Definition processNextImage (w : World) (tmpDir apiKey : string) (options : AppOptions)
  : M unit :=
  match processNextImage_body w tmpDir apiKey options with
  | (Done a, t) => (Done a, t)
  | (Panicking r, t) =>
      (Done tt, t ++ [EvLog ("Recovered from panic: " +:+ r +:+ nl);
                      EvSleep (i64 (60 * Second))])
  end.

(** ** The process: [main], its deferred calls and the signals *)

Inductive signal : Type := SIGINT | SIGTERM | SIGHUP.

Inductive PanelState : Type :=
| Uninitialized | Initialized | Cleared | Displaying | Asleep.

(** The statements of [main] in program order, on the path where no
    start-up step fails; [setupSignalHandling] is a function of the file as
    well. *)
Inductive stmt : Type :=
| parseCommandLineArgs
| initDisplay
| defer_cleanupDisplay
| UserHomeDir
| MkdirAll
| loadConfig
| Getenv
| promptAPIKey
| MkdirTemp
| defer_RemoveAll
| clearDisplay
| setupSignalHandling
| loop_processNextImage.

Definition main : list stmt :=
  [ parseCommandLineArgs; initDisplay; defer_cleanupDisplay; UserHomeDir;
    MkdirAll; loadConfig; Getenv; promptAPIKey; MkdirTemp; defer_RemoveAll;
    clearDisplay; loop_processNextImage ].

(** How the process stands: running, ended by [os.Exit], or ended by a
    signal nobody listens to. *)
Inductive Ending : Type :=
| Running
| Exited (code : Z)
| Killed (s : signal).

Record Process := {
  panelState : PanelState;
  notified : list signal;
  deferred : list stmt;
  ending : Ending
}.

Definition boot : Process :=
  {| panelState := Uninitialized; notified := []; deferred := [];
     ending := Running |}.

Definition setPanel (s : PanelState) (p : Process) : Process :=
  {| panelState := s; notified := notified p; deferred := deferred p;
     ending := ending p |}.

(** [cleanupDisplay]: [display.Sleep()] once the display exists. *)
Definition cleanupDisplay (p : Process) : Process :=
  match panelState p with
  | Uninitialized => p
  | _ => setPanel Asleep p
  end.

Definition exec (p : Process) (s : stmt) : Process :=
  match s with
  | initDisplay => setPanel Initialized p
  | clearDisplay => setPanel Cleared p
  | loop_processNextImage => setPanel Displaying p
  | defer_cleanupDisplay | defer_RemoveAll =>
      {| panelState := panelState p; notified := notified p;
         deferred := s :: deferred p; ending := ending p |}
  | setupSignalHandling =>
      {| panelState := panelState p;
         notified := [SIGINT; SIGTERM; SIGHUP];
         deferred := deferred p; ending := ending p |}
  | parseCommandLineArgs | UserHomeDir | MkdirAll | loadConfig | Getenv
  | promptAPIKey | MkdirTemp => p
  end.

Definition run (prog : list stmt) : Process := foldl exec boot prog.

Definition signal_eqb (a b : signal) : bool :=
  match a, b with
  | SIGINT, SIGINT | SIGTERM, SIGTERM | SIGHUP, SIGHUP => true
  | _, _ => false
  end.

(** A signal arrives. With [signal.Notify] in place the listening goroutine
    runs [cleanupDisplay] and [os.Exit(0)]; without it the Go runtime ends
    the program at once, and deferred calls do not run. *)
Definition deliver (s : signal) (p : Process) : Process :=
  if existsb (signal_eqb s) (notified p)
  then let p' := cleanupDisplay p in
       {| panelState := panelState p'; notified := notified p';
          deferred := deferred p'; ending := Exited 0 |}
  else {| panelState := panelState p; notified := notified p;
          deferred := deferred p; ending := Killed s |}.

(** Small geometry for running the converter. *)
Definition cfg16x2 : SPIConfig :=
  {| RSTPin := 17; DCPin := 25; CSPin := 8; BusyPin := 24; Width := 16; Height := 2 |}.

Definition checker : Image :=
  {| Dx := 16; Dy := 2; At := fun x y => if Z.even (x + y) then black else white |}.

(** ** Notions used by the statements *)

(** The pixel slice of a [Gray] covers its bounds. *)
Definition wfGray (m : Gray) : Prop :=
  0 <= gDx m /\ 0 <= gDy m /\ length (gPix m) = Z.to_nat (gDx m * gDy m).

(** A pixel of the monochrome image is ink when it is black. *)
Definition ink (m : Gray) (x y : Z) : bool := GrayAt m x y =? 0.

(** Bit [bitPos] of byte [bytePos] of a buffer. *)
Definition frameBit (buffer : list Z) (bytePos bitPos : Z) : bool :=
  Z.testbit (default 0 (buffer !! Z.to_nat bytePos)) bitPos.

(** A picture of the panel's size in one colour. *)
Definition solid (c : NRGBA) : Image :=
  {| Dx := 800; Dy := 480; At := fun _ _ => c |}.

(** The complement of a byte, [b ^ 0xFF]. *)
Definition complement (b : Z) : Z := Z.lxor b 255.

(** The places of one cycle where something can go wrong, in program
    order. *)
Inductive step : Type :=
| AtNewRequest | AtFetch | AtStatus | AtParse | AtDownload | AtCreate
| AtCopy | AtOpen | AtDecode | AtConvert | AtPanelWrite.

(** A failure: an error value (or a bad status) met at a step, or a panic
    raised there. *)
Inductive failure : Type :=
| Failed (s : step) (e : string)
| Crashed (s : step) (p : string).

Definition failedAt (f : failure) : step :=
  match f with Failed s _ | Crashed s _ => s end.

Definition attempt {A} (s : step) (o : outcome A) (k : A -> option failure)
  : option failure :=
  match o with
  | Ok a => k a
  | Err e => Some (Failed s e)
  | Panics p => Some (Crashed s p)
  end.

(** The first step of the cycle, in program order, whose answer in the
    world is not a success. *)
Definition firstFailure (w : World) (tmpDir : string) (options : AppOptions)
  : option failure :=
  attempt AtNewRequest (newRequest w) (fun _ =>
  attempt AtFetch (clientDo w) (fun StatusCode =>
  if negb (StatusCode =? 200) then Some (Failed AtStatus (pretty StatusCode)) else
  attempt AtParse (Decode w) (fun terminal =>
  let filePath := pathJoin w tmpDir (targetFilename terminal) in
  attempt AtDownload (httpGet w (ImageURL terminal)) (fun _ =>
  attempt AtCreate (osCreate w filePath) (fun _ =>
  attempt AtCopy (ioCopy w) (fun _ =>
  attempt AtOpen (osOpen w filePath) (fun _ =>
  attempt AtDecode (imageDecode w) (fun img =>
  match convert options img with
  | None => Some (Crashed AtConvert "runtime error: index out of range")
  | Some buffer => attempt AtPanelWrite (panelDisplay w buffer) (fun _ => None)
  end)))))))).

(** The cause as the program words it. *)
Definition cause (f : failure) : string :=
  match f with
  | Crashed _ p => p
  | Failed AtStatus code => "status code " +:+ code
  | Failed AtOpen e => "error opening image file: " +:+ e
  | Failed AtDecode e => "error decoding image: " +:+ e
  | Failed AtPanelWrite e => "error displaying image on Waveshare EPD7in5_V2: " +:+ e
  | Failed _ e => e
  end.

Definition heading (f : failure) : string :=
  match f with
  | Crashed _ _ => "Recovered from panic: "
  | Failed AtNewRequest _ => "Error creating request: "
  | Failed AtFetch _ | Failed AtStatus _ => "Error fetching display: "
  | Failed AtParse _ => "Error parsing JSON: "
  | Failed AtDownload _ => "Error downloading image: "
  | Failed AtCreate _ => "Error creating file: "
  | Failed AtCopy _ => "Error saving image: "
  | Failed _ _ => "Error displaying image: "
  end.

(** The line printed for a failure. *)
Definition report (f : failure) : string := heading f +:+ cause f +:+ nl.

(** ** Worlds for running a cycle *)

(** Everything answers well: status 200, the JSON object [j], a picture
    that decodes to [img], a panel that takes every frame. *)
Definition calm (status : Z) (j : TerminalJSON) (img : Image) : World :=
  {| newRequest := Ok tt;
     clientDo := Ok status;
     responseBody := Ok j;
     httpGet := fun _ => Ok tt;
     pathJoin := fun dir name => dir +:+ "/" +:+ name;
     osCreate := fun _ => Ok tt;
     ioCopy := Ok tt;
     osOpen := fun _ => Ok tt;
     imageDecode := Ok img;
     panelDisplay := fun _ => Ok tt |}.

(** The answer of the first end-to-end scenario: a picture address, an
    empty file name and a refresh rate of 30. *)
Definition scenario1 : TerminalJSON :=
  {| image_url := Some "http://x/1.png"; filename := Some EmptyString;
     refresh_rate := Some 30 |}.

(** The same answer with a refresh rate of 9223372037 seconds. *)
Definition longRate : TerminalJSON :=
  {| image_url := Some "http://x/1.png"; filename := Some EmptyString;
     refresh_rate := Some 9223372037 |}.

Definition quiet : AppOptions := {| DarkMode := false; Verbose := false |}.

(** A value that fits a byte. *)
Definition isByte (b : Z) : Prop := 0 <= b <= 255.

(** A panel three pixels wide and one high, whose area is no whole number
    of bytes. *)
Definition cfg3x1 : SPIConfig :=
  {| RSTPin := 17; DCPin := 25; CSPin := 8; BusyPin := 24; Width := 3; Height := 1 |}.

(** Views of a trace: the printed lines, the durations slept, and the
    calls other than printing. *)
Definition isLog (e : event) : bool :=
  match e with EvLog _ => true | _ => false end.

Definition logs (t : list event) : list string :=
  omap (fun e => match e with EvLog msg => Some msg | _ => None end) t.

Definition sleeps (t : list event) : list Z :=
  omap (fun e => match e with EvSleep d => Some d | _ => None end) t.

Definition effects (t : list event) : list event :=
  List.filter (fun e => negb (isLog e)) t.

(** Turns of the loop of [main], one world for each. *)
Fixpoint cycles (ws : list World) (tmpDir apiKey : string) (options : AppOptions)
  : M unit :=
  match ws with
  | [] => ret tt
  | w :: ws' =>
      let* _ := processNextImage w tmpDir apiKey options in
      cycles ws' tmpDir apiKey options
  end.

(** ** Start-up: [main] and the functions it calls

    The whole of [main] with its failing branches: what it prints, what it
    asks of the panel and of the file system, which calls it defers, and
    how it ends. *)
Module Boot.

(** [Config]. *)
Record Config := { APIKey : string }.

(** The four flags after [flag.Parse]. *)
Record Flags := {
  darkMode : bool;
  showVersion : bool;
  verbose : bool;
  quiet : bool
}.

(** The values the flags are declared with. *)
Definition defaults : Flags :=
  {| darkMode := false; showVersion := false; verbose := true; quiet := false |}.

Inductive answer (A : Type) : Type :=
| Fine (a : A)
| Fails (err : string).
Arguments Fine {A} a.
Arguments Fails {A} err.

(** What the machine answers at start-up. [flagParse] gives the flags, or
    the status with which the flag package itself ends the process;
    [unmarshal] gives the [Config] that [json.Unmarshal] leaves behind
    together with the error that [loadConfig] drops; an [option string] is
    a Go [error], [None] for nil. *)
Record Host := {
  flagParse : Flags + Z;
  displayInit : option string;
  userHomeDir : answer string;
  join : string -> string -> string;
  mkdirAll : string -> Z -> option string;
  readFile : string -> answer string;
  unmarshal : string -> Config * option string;
  getenv : string -> string;
  scanln : string;
  marshalIndent : Config -> answer string;
  writeFile : string -> string -> Z -> option string;
  mkdirTemp : string -> string -> answer string;
  displayClear : Z -> option string
}.

Inductive act : Type :=
| Print (msg : string)
| PanelInit (rst dc cs busy : Z)
| PanelClear (fill : Z)
| PanelSleep
| MkdirAll (path : string) (perm : Z)
| ReadFile (path : string)
| Scanln
| WriteFile (path data : string) (perm : Z)
| MkdirTemp (dir pattern : string)
| RemoveAll (path : string).

Inductive deferred : Type :=
| DeferCleanupDisplay
| DeferRemoveAll (path : string).

(** How [main] ends: [os.Exit], the endless loop over [processNextImage]
    with these arguments, or a return. *)
Inductive ending : Type :=
| Exit (code : Z)
| Loop (tmpDir apiKey : string) (options : AppOptions)
| Return.

Definition commit : string := "unknown".
Definition buildDate : string := "unknown".

(** [parseCommandLineArgs]: the options, or the status of an exit. *)
Definition parseCommandLineArgs (h : Host) : list act * (AppOptions + Z) :=
  match flagParse h with
  | inr code => ([], inr code)
  | inl f =>
      if showVersion f
      then ([Print ("trmnl-display version " +:+ version +:+ " (commit: " +:+ commit
                    +:+ ", built: " +:+ buildDate +:+ ")" +:+ nl)],
            inr 0)
      else ([], inl {| DarkMode := darkMode f;
                       Verbose := verbose f && negb (quiet f) |})
  end.

(** [initDisplay]. *)
Definition initDisplay (h : Host) : list act * option string :=
  let made := PanelInit (RSTPin spiConfig) (DCPin spiConfig) (CSPin spiConfig)
                (BusyPin spiConfig) in
  match displayInit h with
  | Some err => ([made], Some ("failed to initialize Waveshare EPD7in5_V2: " +:+ err))
  | None =>
      ([made;
        Print ("Waveshare 7.5" +:+ dquote
               +:+ " e-ink display (V2) initialized successfully" +:+ nl)],
       None)
  end.

(** [cleanupDisplay]; [display] tells whether the global is set. *)
Definition cleanupDisplay (display : bool) : list act :=
  if display
  then [PanelSleep;
        Print ("Waveshare 7.5" +:+ dquote +:+ " e-ink display put to sleep" +:+ nl)]
  else [].

(** [clearDisplay]. *)
Definition clearDisplay (h : Host) : list act :=
  [Print ("Clearing e-ink display..." +:+ nl); PanelClear 255]
  ++ match displayClear h 255 with
     | Some err => [Print ("Error clearing display: " +:+ err +:+ nl)]
     | None => []
     end.

(** [loadConfig]. *)
Definition loadConfig (h : Host) (configDir : string) : list act * Config :=
  let configFile := join h configDir "config.json" in
  match readFile h configFile with
  | Fails _ => ([ReadFile configFile], {| APIKey := EmptyString |})
  | Fine data => ([ReadFile configFile], fst (unmarshal h data))
  end.

(** [saveConfig]; 0600 is 384. *)
Definition saveConfig (h : Host) (configDir : string) (config : Config) : list act :=
  let configFile := join h configDir "config.json" in
  match marshalIndent h config with
  | Fails err => [Print ("Error saving config: " +:+ err +:+ nl)]
  | Fine data =>
      WriteFile configFile data 384
      :: match writeFile h configFile data 384 with
         | Some err => [Print ("Error writing config file: " +:+ err +:+ nl)]
         | None => []
         end
  end.

(** The two [if config.APIKey == ""] of [main]. *)
Definition resolveKey (h : Host) (configDir : string) (config : Config)
  : list act * Config :=
  let config1 :=
    if String.eqb (APIKey config) EmptyString
    then {| APIKey := getenv h "TRMNL_API_KEY" |} else config in
  if String.eqb (APIKey config1) EmptyString
  then
    let config2 := {| APIKey := scanln h |} in
    ([Print ("TRMNL API Key not found." +:+ nl);
      Print "Please enter your TRMNL API Key: ";
      Scanln]
     ++ saveConfig h configDir config2,
     config2)
  else ([], config1).

(** [main], up to the loop: its trace, the calls deferred so far, latest
    first, and its ending; 0755 is 493. *)
Definition main (h : Host) : list act * list deferred * ending :=
  match parseCommandLineArgs h with
  | (t0, inr code) => (t0, [], Exit code)
  | (t0, inl options) =>
    match initDisplay h with
    | (t1, Some err) =>
        (t0 ++ t1 ++ [Print ("Error initializing e-ink display: " +:+ err +:+ nl)],
         [], Exit 1)
    | (t1, None) =>
      match userHomeDir h with
      | Fails err =>
          (t0 ++ t1 ++ [Print ("Error getting home directory: " +:+ err +:+ nl)],
           [DeferCleanupDisplay], Exit 1)
      | Fine home =>
        let configDir := join h home ".trmnl" in
        match mkdirAll h configDir 493 with
        | Some err =>
            (t0 ++ t1 ++ [MkdirAll configDir 493;
                          Print ("Error creating config directory: " +:+ err +:+ nl)],
             [DeferCleanupDisplay], Exit 1)
        | None =>
          let '(t2, loaded) := loadConfig h configDir in
          let '(t3, config) := resolveKey h configDir loaded in
          match mkdirTemp h EmptyString "trmnl-display" with
          | Fails err =>
              (t0 ++ t1 ++ [MkdirAll configDir 493] ++ t2 ++ t3
               ++ [MkdirTemp EmptyString "trmnl-display";
                   Print ("Error creating temp directory: " +:+ err +:+ nl)],
               [DeferCleanupDisplay], Exit 1)
          | Fine tmpDir =>
              (t0 ++ t1 ++ [MkdirAll configDir 493] ++ t2 ++ t3
               ++ [MkdirTemp EmptyString "trmnl-display"] ++ clearDisplay h,
               [DeferRemoveAll tmpDir; DeferCleanupDisplay],
               Loop tmpDir (APIKey config) options)
          end
        end
      end
    end
  end.

(** The deferred calls, run latest first when [main] returns. *)
Definition runDeferred (ds : list deferred) : list act :=
  flat_map (fun d => match d with
                     | DeferCleanupDisplay => cleanupDisplay true
                     | DeferRemoveAll path => [RemoveAll path]
                     end) ds.

(** The process: deferred calls run on a return only, not on [os.Exit]
    and not while the loop goes on. *)
Definition process (h : Host) : list act * ending :=
  let '(t, ds, e) := main h in
  match e with
  | Return => (t ++ runDeferred ds, Return)
  | _ => (t, e)
  end.

(** What the process asks of the panel. *)
Definition panelActs (t : list act) : list act :=
  List.filter (fun a => match a with
                        | PanelInit _ _ _ _ | PanelClear _ | PanelSleep => true
                        | _ => false
                        end) t.

(** The key kept in the config file, empty when the file cannot be read. *)
Definition storedKey (h : Host) (configDir : string) : string :=
  match readFile h (join h configDir "config.json") with
  | Fine data => APIKey (fst (unmarshal h data))
  | Fails _ => EmptyString
  end.

(** A first start on a machine with no config file and no key in the
    environment: the key is typed in. *)
Definition firstStart : Host :=
  {| flagParse := inl defaults;
     displayInit := None;
     userHomeDir := Fine "/home/pi";
     join := fun dir name => dir +:+ "/" +:+ name;
     mkdirAll := fun _ _ => None;
     readFile := fun _ => Fails "no such file or directory";
     unmarshal := fun _ => ({| APIKey := EmptyString |}, Some "unexpected end of JSON input");
     getenv := fun _ => EmptyString;
     scanln := "typed-key";
     marshalIndent := fun c => Fine ("{ APIKey: " +:+ APIKey c +:+ " }");
     writeFile := fun _ _ _ => None;
     mkdirTemp := fun _ pattern => Fine ("/tmp/" +:+ pattern +:+ "1");
     displayClear := fun _ => None |}.

(** The same machine whose home directory cannot be found. *)
Definition homeless : Host :=
  {| flagParse := inl defaults;
     displayInit := None;
     userHomeDir := Fails "$HOME is not defined";
     join := fun dir name => dir +:+ "/" +:+ name;
     mkdirAll := fun _ _ => None;
     readFile := fun _ => Fails "no such file or directory";
     unmarshal := fun _ => ({| APIKey := EmptyString |}, Some "unexpected end of JSON input");
     getenv := fun _ => EmptyString;
     scanln := "typed-key";
     marshalIndent := fun c => Fine ("{ APIKey: " +:+ APIKey c +:+ " }");
     writeFile := fun _ _ _ => None;
     mkdirTemp := fun _ pattern => Fine ("/tmp/" +:+ pattern +:+ "1");
     displayClear := fun _ => None |}.

End Boot.

(** * Properties *)

(** ** A run of the converter on a 16x2 checkerboard *)

Example pack_checker :
  packFrame cfg16x2 (toMonochrome {| DarkMode := false; Verbose := true |} checker)
  = Some [170; 170; 85; 85].
Proof. vm_compute. reflexivity. Qed.

Example pack_checker_dark :
  packFrame cfg16x2 (toMonochrome {| DarkMode := true; Verbose := true |} checker)
  = Some [85; 85; 170; 170].
Proof. vm_compute. reflexivity. Qed.

(** The sampling index of [imaging.Resize] in binary64: a source 1856
    pixels wide, column 12 of 800 reads source column 28, the step 2.32
    being rounded down, where the exact quotient is 29. *)
Example nearest_index_1856 :
  nearestIndex 12 (PrimFloat.div (float64_of_int 1856) (float64_of_int 800)) = 28
  /\ ((2 * 12 + 1) * 1856) / (2 * 800) = 29.
Proof. split; reflexivity. Qed.

Example nearest_index_double :
  nearestIndex 799 (PrimFloat.div (float64_of_int 1600) (float64_of_int 800)) = 1599
  /\ nearestIndex 0 (PrimFloat.div (float64_of_int 1600) (float64_of_int 800)) = 1.
Proof. split; reflexivity. Qed.

(** The second end-to-end scenario: status 500. *)
Example cycle_status_500 :
  processNextImage (calm 500 scenario1 (solid white)) "/tmp/trmnl-display" "key" quiet
  = (Done tt,
     [EvRequest endpoint 30000000000;
      EvLog ("Error fetching display: status code 500" +:+ nl);
      EvSleep 60000000000]).
Proof. reflexivity. Qed.

Example first_failure_status_500 :
  firstFailure (calm 500 scenario1 (solid white)) "/tmp/trmnl-display" quiet
  = Some (Failed AtStatus "500").
Proof. reflexivity. Qed.

Example filename_fallback :
  Decode (calm 200 scenario1 (solid white))
  = Ok {| ImageURL := "http://x/1.png"; Filename := EmptyString; RefreshRate := 30 |}
  /\ targetFilename {| ImageURL := "http://x/1.png"; Filename := EmptyString;
                       RefreshRate := 30 |} = "display.jpg"
  /\ targetFilename {| ImageURL := "http://x/1.png"; Filename := "plugin.png";
                       RefreshRate := 30 |} = "plugin.png".
Proof. repeat split. Qed.

Example refresh_normalised :
  refreshSeconds {| ImageURL := EmptyString; Filename := EmptyString; RefreshRate := 0 |} = 60
  /\ refreshSeconds {| ImageURL := EmptyString; Filename := EmptyString; RefreshRate := -5 |} = 60
  /\ refreshSeconds {| ImageURL := EmptyString; Filename := EmptyString; RefreshRate := 120 |} = 120.
Proof. repeat split. Qed.

Example signal_with_handler :
  panelState (deliver SIGTERM (run [initDisplay; setupSignalHandling; clearDisplay;
                                    loop_processNextImage])) = Asleep.
Proof. reflexivity. Qed.

(** ** Fixed-width arithmetic *)

Lemma u32_small n : 0 <= n < 4294967296 -> u32 n = n.
Proof. intros H. unfold u32. apply Z.mod_small. exact H. Qed.

Lemma u8_small n : 0 <= n < 256 -> u8 n = n.
Proof. intros H. unfold u8. apply Z.mod_small. exact H. Qed.

Lemma i64_small n : - 9223372036854775808 <= n < 9223372036854775808 -> i64 n = n.
Proof.
  intros H. unfold i64. change (2 ^ 63) with 9223372036854775808.
  change (2 ^ 64) with 18446744073709551616. rewrite Z.mod_small; lia.
Qed.

Lemma in_i64_spec n :
  in_i64 n = true <-> - 9223372036854775808 <= n < 9223372036854775808.
Proof.
  unfold in_i64. change (2 ^ 63) with 9223372036854775808.
  rewrite andb_true_iff, Z.leb_le, Z.ltb_lt. tauto.
Qed.

(** ** Counting loops *)

Lemma elem_of_range n x : x ∈ range n <-> 0 <= x < n.
Proof.
  unfold range. rewrite list_elem_of_fmap. split.
  - intros [k [-> Hk]]. apply elem_of_seq in Hk. lia.
  - intros Hx. exists (Z.to_nat x). split; [lia |]. apply elem_of_seq. lia.
Qed.

Lemma NoDup_range n : NoDup (range n).
Proof.
  unfold range. apply NoDup_fmap_2; [| apply NoDup_seq].
  intros a b H. lia.
Qed.

(** ** Luma *)

Lemma testbit_byte_high v n : 0 <= v < 256 -> 8 <= n -> Z.testbit v n = false.
Proof.
  intros Hv Hn. rewrite <- (Z.mod_small v (2 ^ 8)) by lia.
  apply Z.mod_pow2_bits_high. lia.
Qed.

Lemma lor_shiftl_8 v : 0 <= v < 256 -> Z.lor v (Z.shiftl v 8) = v * 257.
Proof.
  intros Hv.
  assert (Hland : Z.land v (Z.shiftl v 8) = 0).
  { apply Z.bits_inj'. intros n Hn. rewrite Z.land_spec, Z.bits_0.
    destruct (Z_lt_le_dec n 8) as [Hlt | Hge].
    - rewrite (Z.shiftl_spec_low v 8 n) by lia. apply andb_false_r.
    - rewrite (testbit_byte_high v n) by lia. reflexivity. }
  rewrite <- (Z.lxor_lor _ _ Hland), <- (Z.add_nocarry_lxor _ _ Hland).
  rewrite Z.shiftl_mul_pow2 by lia. change (2 ^ 8) with 256. lia.
Qed.

Lemma expand_eq v a : 0 <= v < 256 -> 0 <= a < 256 -> expand v a = v * 257 * a / 255.
Proof.
  intros Hv Ha. unfold expand.
  assert (Hs : 0 <= Z.shiftl v 8 < 4294967296).
  { rewrite Z.shiftl_mul_pow2 by lia. change (2 ^ 8) with 256. lia. }
  rewrite (u32_small _ Hs), (lor_shiftl_8 v Hv).
  rewrite u32_small by nia.
  apply Z.quot_div_nonneg; nia.
Qed.

Lemma expand_range v a : 0 <= v < 256 -> 0 <= a < 256 -> 0 <= expand v a <= 65535.
Proof.
  intros Hv Ha. rewrite expand_eq by assumption.
  split.
  - apply Z.div_pos; nia.
  - apply Z.div_le_upper_bound; nia.
Qed.

Lemma luma_exact r g b :
  0 <= r <= 65535 -> 0 <= g <= 65535 -> 0 <= b <= 65535 ->
  luma r g b = (r * 299 + g * 587 + b * 114) / 1000 / 256
  /\ 0 <= luma r g b <= 255.
Proof.
  intros Hr Hg Hb. unfold luma.
  rewrite (u32_small (r * 299)), (u32_small (g * 587)), (u32_small (b * 114)) by lia.
  rewrite (u32_small (r * 299 + g * 587)) by lia.
  rewrite (u32_small (r * 299 + g * 587 + b * 114)) by lia.
  rewrite Z.quot_div_nonneg by lia.
  rewrite Z.shiftr_div_pow2 by lia. change (2 ^ 8) with 256.
  set (s := r * 299 + g * 587 + b * 114).
  assert (Hs : 0 <= s <= 65535000) by (unfold s; lia).
  assert (Hq : 0 <= s / 1000 / 256 <= 255).
  { split.
    - apply Z.div_pos; [apply Z.div_pos |]; lia.
    - assert (s / 1000 < 65536) by (apply Z.div_lt_upper_bound; lia).
      assert (s / 1000 / 256 < 256) by (apply Z.div_lt_upper_bound; lia).
      lia. }
  rewrite u8_small by lia.
  split; [reflexivity | exact Hq].
Qed.

(** ** [image.Gray] *)

Lemma inBounds_spec m x y :
  inBounds m x y = true <-> 0 <= x < gDx m /\ 0 <= y < gDy m.
Proof.
  unfold inBounds. rewrite !andb_true_iff, !Z.leb_le, !Z.ltb_lt. tauto.
Qed.

Lemma wfGray_NewGray w h : 0 <= w -> 0 <= h -> wfGray (NewGray w h).
Proof.
  intros Hw Hh. unfold wfGray, NewGray. simpl.
  rewrite length_replicate. auto.
Qed.

Lemma PixOffset_lt m x y :
  wfGray m -> inBounds m x y = true ->
  (Z.to_nat (PixOffset m x y) < length (gPix m))%nat.
Proof.
  intros (Hw & Hh & Hlen) Hin. apply inBounds_spec in Hin.
  rewrite Hlen. unfold PixOffset. apply Z2Nat.inj_lt; nia.
Qed.

Lemma PixOffset_inj m x y x' y' :
  inBounds m x y = true -> inBounds m x' y' = true ->
  Z.to_nat (PixOffset m x y) = Z.to_nat (PixOffset m x' y') ->
  x = x' /\ y = y'.
Proof.
  intros Hin Hin' Heq. apply inBounds_spec in Hin, Hin'.
  unfold PixOffset in Heq. apply Z2Nat.inj in Heq; [| nia | nia].
  assert (y = y') by nia. subst y'. lia.
Qed.

Lemma SetGray_bounds m x y c :
  gDx (SetGray m x y c) = gDx m /\ gDy (SetGray m x y c) = gDy m.
Proof. unfold SetGray. destruct (inBounds m x y); auto. Qed.

Lemma inBounds_SetGray m x y c x' y' :
  inBounds (SetGray m x y c) x' y' = inBounds m x' y'.
Proof.
  unfold inBounds. destruct (SetGray_bounds m x y c) as [-> ->]. reflexivity.
Qed.

Lemma wfGray_SetGray m x y c : wfGray m -> wfGray (SetGray m x y c).
Proof.
  intros (Hw & Hh & Hlen). unfold wfGray.
  destruct (SetGray_bounds m x y c) as [-> ->].
  repeat split; try assumption.
  unfold SetGray. destruct (inBounds m x y); simpl; [| assumption].
  rewrite length_insert. assumption.
Qed.

Lemma GrayAt_SetGray_same m x y c :
  wfGray m -> inBounds m x y = true -> GrayAt (SetGray m x y c) x y = c.
Proof.
  intros Hwf Hin. unfold GrayAt. rewrite inBounds_SetGray, Hin.
  unfold SetGray, PixOffset. rewrite Hin. simpl.
  rewrite list_lookup_insert_eq; [reflexivity |].
  apply (PixOffset_lt m x y Hwf Hin).
Qed.

Lemma GrayAt_SetGray_other m x y c x' y' :
  (x, y) <> (x', y') -> GrayAt (SetGray m x y c) x' y' = GrayAt m x' y'.
Proof.
  intros Hne. unfold GrayAt. rewrite inBounds_SetGray.
  destruct (inBounds m x' y') eqn:Hin'; [| reflexivity].
  unfold SetGray. destruct (inBounds m x y) eqn:Hin; [| reflexivity].
  unfold PixOffset at 1. simpl.
  rewrite list_lookup_insert_ne; [reflexivity |].
  intros Heq. apply Hne.
  destruct (PixOffset_inj m x y x' y' Hin Hin' Heq) as [-> ->]. reflexivity.
Qed.

(** ** The monochrome loop *)

Lemma monoRow_wf options img m y : wfGray m -> wfGray (monoRow options img m y).
Proof.
  unfold monoRow. generalize (range (Dx img)) as xs. intros xs. revert m.
  induction xs as [| x xs IH]; intros m Hwf; simpl; [assumption |].
  apply IH. apply wfGray_SetGray. assumption.
Qed.

Lemma monoRow_bounds options img m y :
  gDx (monoRow options img m y) = gDx m /\ gDy (monoRow options img m y) = gDy m.
Proof.
  unfold monoRow. generalize (range (Dx img)) as xs. intros xs. revert m.
  induction xs as [| x xs IH]; intros m; simpl; [auto |].
  destruct (IH (SetGray m x y (monoValue options (gray_of (At img x y))))) as [-> ->].
  apply SetGray_bounds.
Qed.

Lemma monoRow_other_row options img m y x' y' :
  y <> y' -> GrayAt (monoRow options img m y) x' y' = GrayAt m x' y'.
Proof.
  intros Hne. unfold monoRow. generalize (range (Dx img)) as xs. intros xs. revert m.
  induction xs as [| x xs IH]; intros m; simpl; [reflexivity |].
  rewrite IH. apply GrayAt_SetGray_other. congruence.
Qed.

Lemma paint_skip options img y xs : forall m x',
  x' ∉ xs ->
  GrayAt (foldl (fun m x => SetGray m x y (monoValue options (gray_of (At img x y)))) m xs) x' y
  = GrayAt m x' y.
Proof.
  induction xs as [| x xs IH]; intros m x' Hnot; simpl; [reflexivity |].
  apply not_elem_of_cons in Hnot as [Hx Hxs].
  rewrite (IH _ _ Hxs). apply GrayAt_SetGray_other. congruence.
Qed.

Lemma paint_row options img y xs : forall m x',
  wfGray m -> inBounds m x' y = true -> x' ∈ xs ->
  GrayAt (foldl (fun m x => SetGray m x y (monoValue options (gray_of (At img x y)))) m xs) x' y
  = monoValue options (gray_of (At img x' y)).
Proof.
  induction xs as [| x xs IH]; intros m x' Hwf Hin Hel; [inversion Hel |].
  simpl. destruct (decide (x' ∈ xs)) as [Hxs | Hxs].
  - apply IH; [apply wfGray_SetGray; assumption | | assumption].
    rewrite inBounds_SetGray. assumption.
  - apply elem_of_cons in Hel as [-> | Hel]; [| contradiction].
    rewrite (paint_skip _ _ _ _ _ _ Hxs).
    apply GrayAt_SetGray_same; assumption.
Qed.

Lemma rows_wf options img ys : forall m,
  wfGray m -> wfGray (foldl (monoRow options img) m ys).
Proof.
  induction ys as [| y ys IH]; intros m Hwf; simpl; [assumption |].
  apply IH, monoRow_wf, Hwf.
Qed.

Lemma rows_bounds options img ys : forall m,
  gDx (foldl (monoRow options img) m ys) = gDx m
  /\ gDy (foldl (monoRow options img) m ys) = gDy m.
Proof.
  induction ys as [| y ys IH]; intros m; simpl; [auto |].
  destruct (IH (monoRow options img m y)) as [-> ->]. apply monoRow_bounds.
Qed.

Lemma rows_skip options img ys : forall m x y,
  y ∉ ys -> GrayAt (foldl (monoRow options img) m ys) x y = GrayAt m x y.
Proof.
  induction ys as [| y0 ys IH]; intros m x y Hnot; simpl; [reflexivity |].
  apply not_elem_of_cons in Hnot as [Hy Hys].
  rewrite (IH _ _ _ Hys). apply monoRow_other_row. congruence.
Qed.

Lemma rows_paint options img ys : forall m x y,
  wfGray m -> gDx m = Dx img -> inBounds m x y = true -> y ∈ ys ->
  GrayAt (foldl (monoRow options img) m ys) x y
  = monoValue options (gray_of (At img x y)).
Proof.
  induction ys as [| y0 ys IH]; intros m x y Hwf Hdx Hin Hel; [inversion Hel |].
  simpl. destruct (decide (y ∈ ys)) as [Hys | Hys].
  - destruct (monoRow_bounds options img m y0) as [Hbx Hby].
    apply IH; [apply monoRow_wf; assumption | congruence | | assumption].
    unfold inBounds. rewrite Hbx, Hby. exact Hin.
  - apply elem_of_cons in Hel as [-> | Hel]; [| contradiction].
    rewrite (rows_skip _ _ _ _ _ _ Hys). unfold monoRow.
    apply paint_row; [assumption | assumption |].
    apply elem_of_range. apply inBounds_spec in Hin. lia.
Qed.

Lemma toMonochrome_bounds options img :
  gDx (toMonochrome options img) = Dx img /\ gDy (toMonochrome options img) = Dy img.
Proof. unfold toMonochrome. apply rows_bounds. Qed.

Lemma toMonochrome_pixel options img x y :
  0 <= x < Dx img -> 0 <= y < Dy img ->
  GrayAt (toMonochrome options img) x y = monoValue options (gray_of (At img x y)).
Proof.
  intros Hx Hy. unfold toMonochrome.
  apply rows_paint.
  - apply wfGray_NewGray; lia.
  - reflexivity.
  - apply inBounds_spec. simpl. lia.
  - apply elem_of_range. lia.
Qed.

Lemma gray_of_range c : wf_color c -> 0 <= gray_of c <= 255.
Proof.
  intros (Hr & Hg & Hb & Ha). unfold gray_of, RGBA.
  apply luma_exact; apply expand_range; assumption.
Qed.

(** ** The packing loop *)

Lemma frameBit_zeros n i k : frameBit (replicate n 0) i k = false.
Proof.
  unfold frameBit. destruct (replicate n 0 !! Z.to_nat i) as [b |] eqn:Hb; simpl.
  - apply lookup_replicate in Hb as [-> _]. apply Z.bits_0.
  - apply Z.bits_0.
Qed.

Lemma testbit_or_bit b p k :
  0 <= p < 8 -> 0 <= k ->
  Z.testbit (Z.lor b (u8 (Z.shiftl 1 p))) k = Z.testbit b k || (k =? p).
Proof.
  intros Hp Hk.
  assert (Hsmall : 0 <= Z.shiftl 1 p < 256).
  { rewrite Z.shiftl_mul_pow2, Z.mul_1_l by lia.
    split; [apply Z.pow_nonneg; lia |].
    change 256 with (2 ^ 8). apply Z.pow_lt_mono_r; lia. }
  rewrite (u8_small _ Hsmall), Z.lor_spec. f_equal.
  rewrite Z.shiftl_mul_pow2, Z.mul_1_l by lia.
  rewrite Z.pow2_bits_eqb by lia. apply Z.eqb_sym.
Qed.

Lemma frameBit_insert buffer n v i k :
  0 <= i -> (n < length buffer)%nat ->
  frameBit (<[n := v]> buffer) i k
  = if decide (Z.to_nat i = n) then Z.testbit v k else frameBit buffer i k.
Proof.
  intros Hi Hn. unfold frameBit. destruct (decide (Z.to_nat i = n)) as [-> | Hne].
  - rewrite list_lookup_insert_eq by assumption. reflexivity.
  - rewrite list_lookup_insert_ne by congruence. reflexivity.
Qed.

Lemma bitPos_eq x : 0 <= x -> 7 - Z.rem x 8 = 7 - x mod 8 /\ 0 <= 7 - x mod 8 < 8.
Proof.
  intros Hx. rewrite Z.rem_mod_nonneg by lia.
  pose proof (Z.mod_pos_bound x 8). lia.
Qed.

Section Packing.

Variable cfg : SPIConfig.
Variable monoImg : Gray.
Hypothesis width_nonneg : 0 <= Width cfg.
Hypothesis height_nonneg : 0 <= Height cfg.
Hypothesis width_bytes : Width cfg mod 8 = 0.

Let frameLen : nat := Z.to_nat (Width cfg * Height cfg ÷ 8).

Lemma width_eq : Width cfg = 8 * (Width cfg / 8).
Proof. apply Z.div_exact; [lia | exact width_bytes]. Qed.

Lemma bytePos_eq x y :
  0 <= x < Width cfg -> 0 <= y < Height cfg ->
  (y * Width cfg + x) ÷ 8 = (y * Width cfg + x) / 8
  /\ 0 <= (y * Width cfg + x) / 8
  /\ (Z.to_nat ((y * Width cfg + x) / 8) < frameLen)%nat.
Proof.
  intros Hx Hy. pose proof width_eq as Hk.
  set (k := Width cfg / 8) in *.
  assert (Hpos : 0 <= y * Width cfg + x) by nia.
  split; [apply Z.quot_div_nonneg; lia |].
  split; [apply Z.div_pos; lia |].
  unfold frameLen. rewrite Z.quot_div_nonneg by nia.
  apply Z2Nat.inj_lt; [apply Z.div_pos; lia | apply Z.div_pos; nia |].
  replace (Width cfg * Height cfg) with (k * Height cfg * 8) by lia.
  rewrite Z.div_mul by lia.
  apply Z.div_lt_upper_bound; nia.
Qed.

(** Distinct pixels own distinct bits. *)
Lemma position_inj x y x' y' :
  0 <= x < Width cfg -> 0 <= y < Height cfg ->
  0 <= x' < Width cfg -> 0 <= y' < Height cfg ->
  (y * Width cfg + x) / 8 = (y' * Width cfg + x') / 8 ->
  7 - x mod 8 = 7 - x' mod 8 ->
  x = x' /\ y = y'.
Proof.
  intros Hx Hy Hx' Hy' Hbyte Hbit. pose proof width_eq as Hk.
  set (k := Width cfg / 8) in *.
  replace (y * Width cfg + x) with (x + (y * k) * 8) in Hbyte by lia.
  replace (y' * Width cfg + x') with (x' + (y' * k) * 8) in Hbyte by lia.
  rewrite !Z.div_add in Hbyte by lia.
  pose proof (Z.div_mod x 8 ltac:(lia)) as Ex.
  pose proof (Z.div_mod x' 8 ltac:(lia)) as Ex'.
  pose proof (Z.mod_pos_bound x 8 ltac:(lia)).
  pose proof (Z.mod_pos_bound x' 8 ltac:(lia)).
  assert (0 <= x / 8 < k) by (split; [apply Z.div_pos; lia | apply Z.div_lt_upper_bound; lia]).
  assert (0 <= x' / 8 < k) by (split; [apply Z.div_pos; lia | apply Z.div_lt_upper_bound; lia]).
  assert (y = y') by nia. subst y'.
  split; [lia | reflexivity].
Qed.

Lemma packPixel_spec y buffer x :
  0 <= x < Width cfg -> 0 <= y < Height cfg -> length buffer = frameLen ->
  exists buffer',
    packPixel cfg monoImg y buffer x = Some buffer'
    /\ length buffer' = frameLen
    /\ forall i k, 0 <= i -> 0 <= k ->
         frameBit buffer' i k
         = frameBit buffer i k
           || (ink monoImg x y && (i =? (y * Width cfg + x) / 8) && (k =? 7 - x mod 8)).
Proof.
  intros Hx Hy Hlen. unfold packPixel. fold (ink monoImg x y).
  destruct (ink monoImg x y) eqn:Hink.
  - destruct (bytePos_eq x y Hx Hy) as (-> & Hge & Hlt).
    destruct (bitPos_eq x ltac:(lia)) as (-> & Hbit).
    set (bytePos := (y * Width cfg + x) / 8) in *.
    destruct (Z.ltb_spec bytePos 0) as [Hneg | _]; [lia |].
    rewrite <- Hlen in Hlt.
    destruct (lookup_lt_is_Some_2 buffer _ Hlt) as [b Hb]. rewrite Hb.
    eexists. split; [reflexivity |]. split; [rewrite length_insert; exact Hlen |].
    intros i k Hi Hk. rewrite frameBit_insert by assumption.
    simpl. destruct (decide (Z.to_nat i = Z.to_nat bytePos)) as [Heq | Hne].
    + assert (i = bytePos) by lia. subst i.
      rewrite testbit_or_bit by lia. rewrite Z.eqb_refl. simpl.
      unfold frameBit. rewrite Hb. reflexivity.
    + assert (Hib : i <> bytePos) by (intros ->; apply Hne; reflexivity).
      apply Z.eqb_neq in Hib. rewrite Hib. simpl. symmetry. apply orb_false_r.
  - exists buffer. split; [reflexivity |]. split; [assumption |].
    intros i k _ _. simpl. symmetry. apply orb_false_r.
Qed.

Lemma packRow_spec y xs : forall buffer,
  (forall x, x ∈ xs -> 0 <= x < Width cfg) -> 0 <= y < Height cfg ->
  length buffer = frameLen ->
  exists buffer',
    forM (packPixel cfg monoImg y) xs buffer = Some buffer'
    /\ length buffer' = frameLen
    /\ forall i k, 0 <= i -> 0 <= k ->
         (frameBit buffer' i k = true <->
          frameBit buffer i k = true
          \/ exists x, x ∈ xs /\ ink monoImg x y = true
                       /\ i = (y * Width cfg + x) / 8 /\ k = 7 - x mod 8).
Proof.
  induction xs as [| x xs IH]; intros buffer Hxs Hy Hlen; simpl.
  - exists buffer. split; [reflexivity |]. split; [assumption |].
    intros i k _ _. split; [auto |]. intros [H | (x & Hx & _)]; [exact H | inversion Hx].
  - destruct (packPixel_spec y buffer x (Hxs x ltac:(left)) Hy Hlen)
      as (b1 & -> & Hlen1 & Hbits1).
    destruct (IH b1 (fun z Hz => Hxs z ltac:(right; exact Hz)) Hy Hlen1)
      as (b2 & -> & Hlen2 & Hbits2).
    exists b2. split; [reflexivity |]. split; [assumption |].
    intros i k Hi Hk. rewrite (Hbits2 i k Hi Hk), (Hbits1 i k Hi Hk).
    rewrite orb_true_iff, !andb_true_iff, !Z.eqb_eq. split.
    + intros [[H | ((Hink & ->) & ->)] | (z & Hz & Hr)].
      * left. exact H.
      * right. exists x. split; [left | auto].
      * right. exists z. split; [right; exact Hz | exact Hr].
    + intros [H | (z & Hz & Hink & -> & ->)].
      * left. left. exact H.
      * apply elem_of_cons in Hz as [-> | Hz].
        -- left. right. auto.
        -- right. exists z. auto.
Qed.

Lemma packRows_spec ys : forall buffer,
  (forall y, y ∈ ys -> 0 <= y < Height cfg) ->
  length buffer = frameLen ->
  exists buffer',
    forM (packRow cfg monoImg) ys buffer = Some buffer'
    /\ length buffer' = frameLen
    /\ forall i k, 0 <= i -> 0 <= k ->
         (frameBit buffer' i k = true <->
          frameBit buffer i k = true
          \/ exists x y, y ∈ ys /\ 0 <= x < Width cfg /\ ink monoImg x y = true
                         /\ i = (y * Width cfg + x) / 8 /\ k = 7 - x mod 8).
Proof.
  induction ys as [| y ys IH]; intros buffer Hys Hlen; simpl.
  - exists buffer. split; [reflexivity |]. split; [assumption |].
    intros i k _ _. split; [auto |].
    intros [H | (x & y & Hy & _)]; [exact H | inversion Hy].
  - unfold packRow at 1.
    destruct (packRow_spec y (range (Width cfg)) buffer
                (fun x Hx => proj1 (elem_of_range _ _) Hx)
                (Hys y ltac:(left)) Hlen)
      as (b1 & -> & Hlen1 & Hbits1).
    destruct (IH b1 (fun z Hz => Hys z ltac:(right; exact Hz)) Hlen1)
      as (b2 & -> & Hlen2 & Hbits2).
    exists b2. split; [reflexivity |]. split; [assumption |].
    intros i k Hi Hk. rewrite (Hbits2 i k Hi Hk), (Hbits1 i k Hi Hk). split.
    + intros [[H | (x & Hx & Hr)] | (x & z & Hz & Hr)].
      * left. exact H.
      * right. exists x, y. split; [left |]. split; [apply elem_of_range, Hx | exact Hr].
      * right. exists x, z. split; [right; exact Hz | exact Hr].
    + intros [H | (x & z & Hz & Hx & Hr)].
      * left. left. exact H.
      * apply elem_of_cons in Hz as [-> | Hz].
        -- left. right. exists x. split; [apply elem_of_range, Hx | exact Hr].
        -- right. exists x, z. auto.
Qed.

(** The loop never panics, and a bit of the frame is set exactly for an
    ink pixel at its place. *)
Lemma packFrame_spec :
  exists buffer,
    packFrame cfg monoImg = Some buffer
    /\ length buffer = frameLen
    /\ (forall x y, 0 <= x < Width cfg -> 0 <= y < Height cfg ->
          frameBit buffer ((y * Width cfg + x) / 8) (7 - x mod 8) = ink monoImg x y)
    /\ (forall i k, 0 <= i -> 0 <= k -> frameBit buffer i k = true ->
          exists x y, 0 <= x < Width cfg /\ 0 <= y < Height cfg
                      /\ ink monoImg x y = true
                      /\ i = (y * Width cfg + x) / 8 /\ k = 7 - x mod 8).
Proof.
  unfold packFrame.
  destruct (packRows_spec (range (Height cfg))
              (replicate frameLen 0)
              (fun y Hy => proj1 (elem_of_range _ _) Hy)
              (length_replicate _ _))
    as (buffer & Hrun & Hlen & Hbits).
  exists buffer. split; [exact Hrun |]. split; [exact Hlen |]. split.
  - intros x y Hx Hy.
    destruct (bytePos_eq x y Hx Hy) as (_ & Hge & _).
    destruct (bitPos_eq x ltac:(lia)) as (_ & Hbit).
    destruct (ink monoImg x y) eqn:Hink.
    + apply Hbits; [assumption | lia |]. right.
      exists x, y. split; [apply elem_of_range; lia | auto].
    + destruct (frameBit buffer ((y * Width cfg + x) / 8) (7 - x mod 8)) eqn:Hset;
        [| reflexivity].
      apply Hbits in Hset; [| assumption | lia].
      destruct Hset as [Hz | (x' & y' & Hy' & Hx' & Hink' & Hi & Hk)].
      * rewrite frameBit_zeros in Hz. discriminate.
      * apply elem_of_range in Hy'.
        destruct (position_inj x y x' y' Hx Hy Hx' Hy' Hi Hk) as [-> ->].
        congruence.
  - intros i k Hi Hk Hset. apply Hbits in Hset; [| assumption | assumption].
    destruct Hset as [Hz | (x & y & Hy & Hx & Hr)].
    + rewrite frameBit_zeros in Hz. discriminate.
    + exists x, y. apply elem_of_range in Hy. auto.
Qed.

(** Every bit of every byte of the frame belongs to a pixel. *)
Lemma pixel_of_bit i k :
  (Z.to_nat i < frameLen)%nat -> 0 <= i -> 0 <= k < 8 ->
  exists x y, 0 <= x < Width cfg /\ 0 <= y < Height cfg
              /\ i = (y * Width cfg + x) / 8 /\ k = 7 - x mod 8.
Proof.
  intros Hlt Hi Hk. pose proof width_eq as Hw.
  unfold frameLen in Hlt. set (w8 := Width cfg / 8) in *.
  assert (Hq : Width cfg * Height cfg ÷ 8 = w8 * Height cfg).
  { rewrite Z.quot_div_nonneg by nia.
    replace (Width cfg * Height cfg) with (w8 * Height cfg * 8) by lia.
    apply Z.div_mul. lia. }
  rewrite Hq in Hlt.
  assert (Hi' : i < w8 * Height cfg) by lia.
  assert (Hw8 : 0 < w8) by nia.
  pose proof (Z.div_mod i w8 ltac:(lia)) as Ei.
  pose proof (Z.mod_pos_bound i w8 Hw8) as Bi.
  assert (Hy : 0 <= i / w8 < Height cfg).
  { split; [apply Z.div_pos; lia | apply Z.div_lt_upper_bound; lia]. }
  exists (8 * (i mod w8) + (7 - k)), (i / w8).
  split; [lia |]. split; [exact Hy |]. split.
  - replace (i / w8 * Width cfg + (8 * (i mod w8) + (7 - k)))
      with ((7 - k) + i * 8) by nia.
    rewrite Z.div_add by lia. rewrite Z.div_small by lia. lia.
  - replace (8 * (i mod w8) + (7 - k)) with ((7 - k) + (i mod w8) * 8) by lia.
    rewrite Z.mod_add by lia. rewrite Z.mod_small by lia. lia.
Qed.

(** A buffer with the right bits is the frame. *)
Lemma packFrame_is buffer0 :
  length buffer0 = frameLen ->
  (forall i k, 0 <= i -> 8 <= k -> frameBit buffer0 i k = false) ->
  (forall x y, 0 <= x < Width cfg -> 0 <= y < Height cfg ->
     frameBit buffer0 ((y * Width cfg + x) / 8) (7 - x mod 8) = ink monoImg x y) ->
  packFrame cfg monoImg = Some buffer0.
Proof.
  intros Hlen0 Hhigh0 Hbits0.
  destruct packFrame_spec as (buffer & -> & Hlen & Hbits & Hset).
  f_equal. apply list_eq. intros n.
  destruct (decide (n < frameLen)%nat) as [Hn | Hn].
  - destruct (lookup_lt_is_Some_2 buffer n ltac:(lia)) as [a Ha].
    destruct (lookup_lt_is_Some_2 buffer0 n ltac:(lia)) as [b Hb].
    rewrite Ha, Hb. f_equal. apply Z.bits_inj'. intros k Hk.
    assert (Ea : Z.testbit a k = frameBit buffer (Z.of_nat n) k).
    { unfold frameBit. rewrite Nat2Z.id, Ha. reflexivity. }
    assert (Eb : Z.testbit b k = frameBit buffer0 (Z.of_nat n) k).
    { unfold frameBit. rewrite Nat2Z.id, Hb. reflexivity. }
    rewrite Ea, Eb. destruct (Z_lt_le_dec k 8) as [Hk8 | Hk8].
    + destruct (pixel_of_bit (Z.of_nat n) k) as (x & y & Hx & Hy & Hi & Hp);
        [rewrite Nat2Z.id; exact Hn | lia | lia |].
      rewrite Hi, Hp. rewrite Hbits, Hbits0 by assumption. reflexivity.
    + rewrite Hhigh0 by lia.
      destruct (frameBit buffer (Z.of_nat n) k) eqn:Hb1; [| reflexivity].
      apply Hset in Hb1; [| lia | lia].
      destruct Hb1 as (x & y & Hx & _ & _ & _ & Hp).
      pose proof (Z.mod_pos_bound x 8 ltac:(lia)). lia.
  - rewrite !lookup_ge_None_2 by lia. reflexivity.
Qed.

End Packing.

Lemma frameBit_replicate n v i k :
  0 <= i ->
  frameBit (replicate n v) i k = if decide (Z.to_nat i < n)%nat then Z.testbit v k else false.
Proof.
  intros Hi. unfold frameBit. destruct (decide (Z.to_nat i < n)%nat) as [Hlt | Hge].
  - rewrite (lookup_replicate_2 n v (Z.to_nat i) Hlt). reflexivity.
  - rewrite lookup_ge_None_2 by (rewrite length_replicate; lia). apply Z.bits_0.
Qed.

Lemma testbit_255 k : 0 <= k -> Z.testbit 255 k = (k <? 8).
Proof.
  intros Hk. change 255 with (Z.ones 8).
  destruct (Z.ltb_spec k 8).
  - apply Z.ones_spec_low. lia.
  - apply Z.ones_spec_high. lia.
Qed.

Lemma frameBit_fmap (f : Z -> Z) buffer i k :
  frameBit (f <$> buffer) i k
  = if decide (Z.to_nat i < length buffer)%nat
    then Z.testbit (f (default 0 (buffer !! Z.to_nat i))) k
    else false.
Proof.
  unfold frameBit. rewrite list_lookup_fmap.
  destruct (decide (Z.to_nat i < length buffer)%nat) as [Hlt | Hge].
  - destruct (lookup_lt_is_Some_2 buffer _ Hlt) as [b ->]. reflexivity.
  - rewrite lookup_ge_None_2 by lia. apply Z.bits_0.
Qed.

(** ** The panel geometry of the program *)

Lemma spi_width_nonneg : 0 <= Width spiConfig.
Proof. simpl. lia. Qed.

Lemma spi_height_nonneg : 0 <= Height spiConfig.
Proof. simpl. lia. Qed.

Lemma spi_width_bytes : Width spiConfig mod 8 = 0.
Proof. reflexivity. Qed.

Lemma Resize_panel_size img :
  Dx img = 800 -> Dy img = 480 ->
  Resize img (Width spiConfig) (Height spiConfig) = img.
Proof. intros Hx Hy. unfold Resize. simpl. rewrite Hx, Hy. reflexivity. Qed.

Lemma ink_toMonochrome options img x y :
  0 <= x < Dx img -> 0 <= y < Dy img ->
  ink (toMonochrome options img) x y
  = if DarkMode options
    then negb (gray_of (At img x y) <? threshold)
    else gray_of (At img x y) <? threshold.
Proof.
  intros Hx Hy. unfold ink. rewrite toMonochrome_pixel by assumption.
  unfold monoValue. destruct (DarkMode options).
  - destruct (gray_of (At img x y) <? threshold); reflexivity.
  - rewrite Z.leb_antisym.
    destruct (gray_of (At img x y) <? threshold); reflexivity.
Qed.

Lemma spi_frame_bit (monoImg : Gray) buffer x y :
  packFrame spiConfig monoImg = Some buffer ->
  0 <= x < 800 -> 0 <= y < 480 ->
  length buffer = Z.to_nat 48000
  /\ (Z.to_nat ((y * 800 + x) / 8) < length buffer)%nat
  /\ frameBit buffer ((y * 800 + x) / 8) (7 - x mod 8) = ink monoImg x y.
Proof.
  intros Hrun Hx Hy.
  destruct (packFrame_spec spiConfig monoImg spi_width_nonneg spi_height_nonneg
              spi_width_bytes) as (b & Hb & Hlen & Hbits & _).
  rewrite Hrun in Hb. injection Hb as <-.
  split; [exact Hlen |]. split.
  - rewrite Hlen.
    destruct (bytePos_eq spiConfig spi_width_nonneg spi_height_nonneg spi_width_bytes
                x y Hx Hy) as (_ & _ & Hlt).
    exact Hlt.
  - apply (Hbits x y Hx Hy).
Qed.

(** ** The frame converter: claims *)

(** C4. For every pixel of the resized image whose 16-bit channel values
    r, g, b lie in [0, 65535], the grayscale value compared with the
    threshold, and so the value stored in the monochrome image, comes from
    (r*299 + g*587 + b*114) / 1000 shifted right by 8 and truncated to
    8 bits; no intermediate [uint32] operation wraps, and the truncation
    drops nothing. *)
Theorem C4_luma_bit_exact (options : AppOptions) (img : Image) (x y r g b a : Z) :
  0 <= x < Dx img -> 0 <= y < Dy img ->
  RGBA (At img x y) = (r, g, b, a) ->
  0 <= r <= 65535 -> 0 <= g <= 65535 -> 0 <= b <= 65535 ->
  let gray := Z.shiftr ((r * 299 + g * 587 + b * 114) / 1000) 8 mod 2 ^ 8 in
  gray_of (At img x y) = gray
  /\ GrayAt (toMonochrome options img) x y = monoValue options gray
  /\ luma r g b = gray
  /\ gray = Z.shiftr ((r * 299 + g * 587 + b * 114) / 1000) 8.
Proof.
  intros Hx Hy Hrgba Hr Hg Hb gray.
  destruct (luma_exact r g b Hr Hg Hb) as [Heq Hrange].
  assert (Hshift : Z.shiftr ((r * 299 + g * 587 + b * 114) / 1000) 8 = luma r g b).
  { rewrite Z.shiftr_div_pow2 by lia. change (2 ^ 8) with 256. symmetry. exact Heq. }
  assert (Hgray : gray = luma r g b).
  { unfold gray. rewrite Hshift. change (2 ^ 8) with 256. apply Z.mod_small. lia. }
  assert (Hof : gray_of (At img x y) = luma r g b).
  { unfold gray_of. rewrite Hrgba. reflexivity. }
  split; [rewrite Hof, Hgray; reflexivity |].
  split; [rewrite toMonochrome_pixel by assumption; rewrite Hof, Hgray; reflexivity |].
  split; [symmetry; exact Hgray |].
  rewrite Hshift. exact Hgray.
Qed.

Lemma C4_luma_bit_exact_witness :
  let gray :=
    Z.shiftr ((65535 * 299 + 65535 * 587 + 65535 * 114) / 1000) 8 mod 2 ^ 8 in
  gray_of (At checker 1 0) = gray
  /\ GrayAt (toMonochrome quiet checker) 1 0 = monoValue quiet gray
  /\ luma 65535 65535 65535 = gray
  /\ gray = Z.shiftr ((65535 * 299 + 65535 * 587 + 65535 * 114) / 1000) 8.
Proof.
  apply (C4_luma_bit_exact quiet checker 1 0 65535 65535 65535 65535);
    [ change (Dx checker) with 16; lia
    | change (Dy checker) with 2; lia
    | reflexivity | lia | lia | lia ].
Defined.

(** C5. A pixel of the resized image with grayscale value gray becomes, in
    the monochrome image, paper (255) when gray >= 128 and ink (0) when
    gray < 128 without dark mode, and the other way round with dark mode;
    without dark mode 127 is ink and 128 is paper. *)
Theorem C5_threshold_polarity (options : AppOptions) (img : Image) (x y : Z) :
  0 <= x < Dx img -> 0 <= y < Dy img ->
  let gray := gray_of (At img x y) in
  let stored := GrayAt (toMonochrome options img) x y in
  (DarkMode options = false ->
     (128 <= gray -> stored = 255) /\ (gray < 128 -> stored = 0))
  /\ (DarkMode options = true ->
     (gray < 128 -> stored = 255) /\ (128 <= gray -> stored = 0))
  /\ monoValue {| DarkMode := false; Verbose := Verbose options |} 127 = 0
  /\ monoValue {| DarkMode := false; Verbose := Verbose options |} 128 = 255.
Proof.
  intros Hx Hy gray stored. subst stored.
  rewrite toMonochrome_pixel by assumption. fold gray. clearbody gray.
  unfold monoValue, threshold. cbn [DarkMode].
  split; [| split; [| split; reflexivity]];
    intros Hmode; rewrite Hmode; split; intros Hg.
  - destruct (Z.leb_spec 128 gray); [reflexivity | lia].
  - destruct (Z.leb_spec 128 gray); [lia | reflexivity].
  - destruct (Z.ltb_spec gray 128); [reflexivity | lia].
  - destruct (Z.ltb_spec gray 128); [lia | reflexivity].
Qed.

Lemma C5_threshold_polarity_witness :
  let options := {| DarkMode := false; Verbose := true |} in
  let gray := gray_of (At checker 1 0) in
  let stored := GrayAt (toMonochrome options checker) 1 0 in
  (DarkMode options = false ->
     (128 <= gray -> stored = 255) /\ (gray < 128 -> stored = 0))
  /\ (DarkMode options = true ->
     (gray < 128 -> stored = 255) /\ (128 <= gray -> stored = 0))
  /\ monoValue {| DarkMode := false; Verbose := Verbose options |} 127 = 0
  /\ monoValue {| DarkMode := false; Verbose := Verbose options |} 128 = 255.
Proof.
  apply (C5_threshold_polarity {| DarkMode := false; Verbose := true |} checker 1 0);
    change (Dx checker) with 16; change (Dy checker) with 2; lia.
Defined.

(** C6. For every monochrome bitmap the packing loop yields a buffer of
    width*height/8 bytes, 48000 for the 800x480 panel, and the pixel in
    column x of row y has its bit in byte (y*width + x)/8 at position
    7 - (x mod 8), set exactly when the pixel is ink. *)
Theorem C6_packed_frame_layout (monoImg : Gray) (x y : Z) :
  0 <= x < Width spiConfig -> 0 <= y < Height spiConfig ->
  exists buffer byte,
    packFrame spiConfig monoImg = Some buffer
    /\ Z.of_nat (length buffer) = Width spiConfig * Height spiConfig / 8
    /\ Z.of_nat (length buffer) = 48000
    /\ buffer !! Z.to_nat ((y * Width spiConfig + x) / 8) = Some byte
    /\ Z.testbit byte (7 - x mod 8) = ink monoImg x y.
Proof.
  intros Hx Hy.
  destruct (packFrame_spec spiConfig monoImg spi_width_nonneg spi_height_nonneg
              spi_width_bytes) as (buffer & Hrun & _).
  destruct (spi_frame_bit monoImg buffer x y Hrun Hx Hy) as (Hlen & Hlt & Hbit).
  destruct (lookup_lt_is_Some_2 buffer _ Hlt) as [byte Hbyte].
  exists buffer, byte. split; [exact Hrun |].
  split; [rewrite Hlen, Z2Nat.id by lia; reflexivity |].
  split; [rewrite Hlen, Z2Nat.id by lia; reflexivity |].
  split; [exact Hbyte |].
  rewrite <- Hbit. unfold frameBit. simpl Width. rewrite Hbyte. reflexivity.
Qed.

Lemma C6_packed_frame_layout_witness :
  exists buffer byte,
    packFrame spiConfig (NewGray 800 480) = Some buffer
    /\ Z.of_nat (length buffer) = Width spiConfig * Height spiConfig / 8
    /\ Z.of_nat (length buffer) = 48000
    /\ buffer !! Z.to_nat ((479 * Width spiConfig + 799) / 8) = Some byte
    /\ Z.testbit byte (7 - 799 mod 8) = ink (NewGray 800 480) 799 479.
Proof.
  apply (C6_packed_frame_layout (NewGray 800 480) 799 479);
    change (Width spiConfig) with 800; change (Height spiConfig) with 480; lia.
Defined.

Lemma gray_of_black : gray_of black = 0.
Proof. reflexivity. Qed.

Lemma gray_of_white : gray_of white = 255.
Proof. reflexivity. Qed.

Lemma spi_byte_in_frame x y :
  0 <= x < 800 -> 0 <= y < 480 ->
  0 <= (y * 800 + x) / 8
  /\ (Z.to_nat ((y * 800 + x) / 8) < Z.to_nat 48000)%nat
  /\ 0 <= 7 - x mod 8 < 8.
Proof.
  intros Hx Hy.
  destruct (bytePos_eq spiConfig spi_width_nonneg spi_height_nonneg spi_width_bytes
              x y Hx Hy) as (_ & Hge & Hlt).
  destruct (bitPos_eq x ltac:(lia)) as [_ Hbit].
  split; [exact Hge |]. split; [exact Hlt | exact Hbit].
Qed.

(** A frame of one byte value, when every pixel has the same class. *)
Lemma uniform_frame (monoImg : Gray) (v : Z) (cls : bool) :
  (forall k, 0 <= k -> Z.testbit v k = cls && (k <? 8)) ->
  (forall x y, 0 <= x < 800 -> 0 <= y < 480 -> ink monoImg x y = cls) ->
  packFrame spiConfig monoImg = Some (replicate (Z.to_nat 48000) v).
Proof.
  intros Hv Hink.
  apply (packFrame_is spiConfig monoImg spi_width_nonneg spi_height_nonneg
           spi_width_bytes).
  - rewrite length_replicate. reflexivity.
  - intros i k Hi Hk. rewrite frameBit_replicate by assumption.
    destruct (decide _); [| reflexivity].
    rewrite Hv by lia. destruct (Z.ltb_spec k 8); [lia |]. apply andb_false_r.
  - intros x y Hx Hy. change (Width spiConfig) with 800.
    destruct (spi_byte_in_frame x y Hx Hy) as (Hge & Hlt & Hbit).
    rewrite frameBit_replicate by assumption.
    destruct (decide _) as [_ | Hn]; [| contradiction].
    rewrite Hv by lia. rewrite (Hink x y Hx Hy).
    destruct (Z.ltb_spec (7 - x mod 8) 8); [| lia]. apply andb_true_r.
Qed.

(** C7. With dark mode off, an 800x480 picture that is black everywhere
    is converted to 48000 bytes 0xFF, and one that is white everywhere to
    48000 bytes 0x00. *)
Theorem C7_uniform_frames (img : Image) (verbose : bool) :
  Dx img = 800 -> Dy img = 480 ->
  (uniform black img ->
     convert {| DarkMode := false; Verbose := verbose |} img
     = Some (replicate (Z.to_nat 48000) 255))
  /\ (uniform white img ->
     convert {| DarkMode := false; Verbose := verbose |} img
     = Some (replicate (Z.to_nat 48000) 0)).
Proof.
  intros Hdx Hdy. unfold convert. rewrite (Resize_panel_size img Hdx Hdy).
  split; intros Huni.
  - apply (uniform_frame _ 255 true).
    + intros k Hk. apply testbit_255, Hk.
    + intros x y Hx Hy. rewrite ink_toMonochrome by lia. cbn [DarkMode].
      rewrite Huni by lia. reflexivity.
  - apply (uniform_frame _ 0 false).
    + intros k Hk. apply Z.bits_0.
    + intros x y Hx Hy. rewrite ink_toMonochrome by lia. cbn [DarkMode].
      rewrite Huni by lia. reflexivity.
Qed.

Lemma C7_uniform_frames_witness :
  convert {| DarkMode := false; Verbose := true |} (solid black)
  = Some (replicate (Z.to_nat 48000) 255)
  /\ convert {| DarkMode := false; Verbose := true |} (solid white)
     = Some (replicate (Z.to_nat 48000) 0).
Proof.
  split.
  - apply (proj1 (C7_uniform_frames (solid black) true eq_refl eq_refl)).
    intros x y _ _. reflexivity.
  - apply (proj2 (C7_uniform_frames (solid white) true eq_refl eq_refl)).
    intros x y _ _. reflexivity.
Defined.

Lemma testbit_complement b k :
  0 <= k -> Z.testbit (complement b) k = xorb (Z.testbit b k) (k <? 8).
Proof.
  intros Hk. unfold complement. rewrite Z.lxor_spec, testbit_255 by assumption.
  reflexivity.
Qed.

(** C10. For every 800x480 picture the frame made with dark mode on is,
    byte for byte, the complement of the frame made with dark mode off. *)
Theorem C10_dark_mode_complement (img : Image) (verbose : bool) :
  Dx img = 800 -> Dy img = 480 ->
  exists light dark,
    convert {| DarkMode := false; Verbose := verbose |} img = Some light
    /\ convert {| DarkMode := true; Verbose := verbose |} img = Some dark
    /\ Z.of_nat (length light) = 48000
    /\ dark = complement <$> light.
Proof.
  intros Hdx Hdy. unfold convert. rewrite (Resize_panel_size img Hdx Hdy).
  set (lightOpt := {| DarkMode := false; Verbose := verbose |}).
  set (darkOpt := {| DarkMode := true; Verbose := verbose |}).
  destruct (packFrame_spec spiConfig (toMonochrome lightOpt img)
              spi_width_nonneg spi_height_nonneg spi_width_bytes)
    as (light & Hlight & Hlen & Hbits & Hset).
  exists light, (complement <$> light).
  split; [exact Hlight |]. split; [| split; [| reflexivity]].
  - apply (packFrame_is spiConfig _ spi_width_nonneg spi_height_nonneg spi_width_bytes).
    + rewrite length_fmap. exact Hlen.
    + intros i k Hi Hk. rewrite frameBit_fmap.
      destruct (decide _) as [Hlt | _]; [| reflexivity].
      rewrite testbit_complement by lia.
      destruct (Z.ltb_spec k 8); [lia |]. rewrite xorb_false_r.
      fold (frameBit light i k).
      destruct (frameBit light i k) eqn:Hb; [| reflexivity].
      apply Hset in Hb; [| lia | lia].
      destruct Hb as (x & y & Hx & _ & _ & _ & Hp).
      pose proof (Z.mod_pos_bound x 8 ltac:(lia)). lia.
    + intros x y Hx Hy. change (Width spiConfig) with 800 in *.
      change (Height spiConfig) with 480 in *.
      destruct (spi_byte_in_frame x y Hx Hy) as (Hge & Hlt & Hbit).
      rewrite frameBit_fmap. rewrite Hlen.
      destruct (decide _) as [_ | Hn]; [| contradiction].
      rewrite testbit_complement by lia.
      destruct (Z.ltb_spec (7 - x mod 8) 8); [| lia].
      fold (frameBit light ((y * 800 + x) / 8) (7 - x mod 8)).
      rewrite (Hbits x y Hx Hy).
      rewrite !ink_toMonochrome by lia. cbn [DarkMode lightOpt darkOpt].
      apply xorb_true_r.
  - rewrite Hlen, Z2Nat.id; [reflexivity |].
    vm_compute. discriminate.
Qed.

Lemma C10_dark_mode_complement_witness :
  exists light dark,
    convert {| DarkMode := false; Verbose := true |} (solid white) = Some light
    /\ convert {| DarkMode := true; Verbose := true |} (solid white) = Some dark
    /\ Z.of_nat (length light) = 48000
    /\ dark = complement <$> light.
Proof. apply (C10_dark_mode_complement (solid white) true eq_refl eq_refl). Defined.

(** ** The refresh cycle *)

Lemma thirty_seconds : i64 (30 * Second) = 30000000000.
Proof. reflexivity. Qed.

Lemma sixty_seconds_ns : i64 (60 * Second) = 60000000000.
Proof. reflexivity. Qed.

Ltac cycle_unfold :=
  unfold processNextImage, processNextImage_body, displayImage, firstFailure,
    attempt, Decode, decodeTerminal, cooldown, Printf, Sleep, emit, call, ret,
    panic, bind in *;
  rewrite ?thirty_seconds, ?sixty_seconds_ns in *.

Ltac cycle_step o :=
  destruct o eqn:?; cbn [app fst snd negb] in *.

Ltac absent H :=
  repeat (apply elem_of_cons in H as [H | H]; [discriminate H |]);
  apply elem_of_nil in H; exact H.

Ltac no_repeat :=
  repeat (apply NoDup_cons; split;
          [let H := fresh in intros H;
           repeat (apply elem_of_cons in H as [H | H];
                   [try discriminate H; injection H; intros; discriminate |]);
           apply elem_of_nil in H; exact H |]);
  apply NoDup_nil; exact I.

Ltac failed_branch :=
  match goal with
  | Hf : Some _ = Some _ |- _ => injection Hf as ->
  end;
  match goal with
  | |- exists before, (_, ?t) = (_, before ++ _) /\ _ =>
      exists (take (length t - 2) t)
  end;
  cbn [take length Nat.sub failedAt];
  split; [reflexivity |];
  split; [intros d Hd; absent Hd |];
  split; [no_repeat |];
  try (intros Hstep buffer Hd; try (exfalso; apply Hstep; reflexivity); absent Hd).

(** C2. Whatever fails first in a cycle, an error value, a bad status or a
    panic, the call returns normally; its trace ends with the printed cause
    and a sleep of 60 seconds, there is no other sleep, no call is made
    twice, and unless the failure is the panel write itself nothing was
    written to the panel. *)
Theorem C2_failed_cycle (w : World) (tmpDir apiKey : string) (options : AppOptions)
    (f : failure) :
  firstFailure w tmpDir options = Some f ->
  exists before,
    processNextImage w tmpDir apiKey options
    = (Done tt, before ++ [EvLog (report f); EvSleep (60 * Second)])
    /\ (forall d, EvSleep d ∉ before)
    /\ NoDup before
    /\ (failedAt f <> AtPanelWrite -> forall buffer, EvDisplay buffer ∉ before).
Proof.
  intros Hf. symmetry in Hf. cycle_unfold.
  cycle_step (newRequest w); [| failed_branch | failed_branch].
  cycle_step (clientDo w); [| failed_branch | failed_branch].
  match goal with
  | |- context [?code =? 200] => cycle_step (code =? 200)
  end; [| failed_branch].
  cycle_step (responseBody w); [| failed_branch | failed_branch].
  match goal with
  | |- context [in_i64 ?r] => cycle_step (in_i64 r)
  end; [| failed_branch].
  match goal with
  | |- context [httpGet w ?u] => cycle_step (httpGet w u)
  end; [| failed_branch | failed_branch].
  match goal with
  | |- context [osCreate w ?p] => cycle_step (osCreate w p)
  end; [| failed_branch | failed_branch].
  cycle_step (ioCopy w); [| failed_branch | failed_branch].
  match goal with
  | |- context [osOpen w ?p] => cycle_step (osOpen w p)
  end; [| failed_branch | failed_branch].
  destruct (Verbose options); cbn [app fst snd] in *.
  all: cycle_step (imageDecode w); [| failed_branch | failed_branch].
  all: match goal with
       | |- context [convert ?o ?img] => cycle_step (convert o img)
       end; [| failed_branch].
  all: match goal with
       | Hf : _ |- context [panelDisplay ?v ?b] =>
           cycle_step (panelDisplay v b); [discriminate Hf | |]
       end; failed_branch.
Qed.

Lemma C2_failed_cycle_witness :
  exists before,
    processNextImage (calm 500 scenario1 (solid white)) "/tmp/trmnl-display" "key" quiet
    = (Done tt, before ++ [EvLog (report (Failed AtStatus "500"));
                           EvSleep (60 * Second)])
    /\ (forall d, EvSleep d ∉ before)
    /\ NoDup before
    /\ (failedAt (Failed AtStatus "500") <> AtPanelWrite ->
        forall buffer, EvDisplay buffer ∉ before).
Proof.
  apply (C2_failed_cycle (calm 500 scenario1 (solid white)) "/tmp/trmnl-display"
           "key" quiet (Failed AtStatus "500")).
  reflexivity.
Defined.

(** The converter never panics on the panel's geometry. *)
Lemma convert_total options img : exists buffer, convert options img = Some buffer.
Proof.
  unfold convert.
  destruct (packFrame_spec spiConfig
              (toMonochrome options (Resize img (Width spiConfig) (Height spiConfig)))
              spi_width_nonneg spi_height_nonneg spi_width_bytes)
    as (buffer & Hrun & _).
  exists buffer. exact Hrun.
Qed.

(** Once the metadata is read, the picture is asked for and its file
    created, whatever happens later. *)
Lemma cycle_prefix w tmpDir apiKey options terminal :
  newRequest w = Ok tt -> clientDo w = Ok 200 -> Decode w = Ok terminal ->
  httpGet w (ImageURL terminal) = Ok tt ->
  exists rest,
    snd (processNextImage w tmpDir apiKey options)
    = EvRequest endpoint 30000000000
      :: EvRequest (ImageURL terminal) 0
      :: EvCreate (pathJoin w tmpDir (targetFilename terminal))
      :: rest
    /\ forall p, EvCreate p ∉ rest.
Proof.
  intros Hreq Hdo Hdec Hget.
  unfold processNextImage, processNextImage_body, displayImage,
    cooldown, Printf, Sleep, emit, call, ret, panic, bind.
  rewrite ?thirty_seconds, ?sixty_seconds_ns.
  rewrite Hreq, Hdo. cbn [Z.eqb Pos.eqb negb]. rewrite Hdec, Hget.
  cbn [app fst snd].
  repeat match goal with
         | |- context [match ?o with Ok _ => _ | Err _ => _ | Panics _ => _ end] =>
             destruct o; cbn [app fst snd]
         | |- context [if Verbose options then _ else _] =>
             destruct (Verbose options); cbn [app fst snd]
         | |- context [match convert ?o ?i with _ => _ end] =>
             destruct (convert o i); cbn [app fst snd]
         end.
  all: eexists; split; [reflexivity |]; intros q Hq; absent Hq.
Qed.

(** A cycle in which nothing fails ends with the sleep computed from the
    refresh rate, its only sleep, after one frame went to the panel. *)
Lemma displayed_cycle w tmpDir apiKey options terminal :
  firstFailure w tmpDir options = None -> Decode w = Ok terminal ->
  exists before buffer,
    processNextImage w tmpDir apiKey options
    = (Done tt, before ++ [EvSleep (i64 (i64 (refreshSeconds terminal) * Second))])
    /\ (forall d, EvSleep d ∉ before)
    /\ EvDisplay buffer ∈ before.
Proof.
  intros Hf Hdec.
  unfold processNextImage, processNextImage_body, displayImage, firstFailure,
    attempt, cooldown, Printf, Sleep, emit, call, ret, panic, bind in *.
  rewrite ?thirty_seconds, ?sixty_seconds_ns in *.
  cycle_step (newRequest w); try discriminate Hf.
  cycle_step (clientDo w); try discriminate Hf.
  match goal with
  | |- context [?code =? 200] => cycle_step (code =? 200)
  end; try discriminate Hf.
  rewrite Hdec in *.
  match goal with
  | |- context [httpGet w ?u] => cycle_step (httpGet w u)
  end; try discriminate Hf.
  match goal with
  | |- context [osCreate w ?p] => cycle_step (osCreate w p)
  end; try discriminate Hf.
  cycle_step (ioCopy w); try discriminate Hf.
  match goal with
  | |- context [osOpen w ?p] => cycle_step (osOpen w p)
  end; try discriminate Hf.
  cycle_step (imageDecode w); try discriminate Hf.
  match goal with
  | |- context [convert options ?img] =>
      destruct (convert options img) as [frame |] eqn:?; cbn [app fst snd] in *
  end; try discriminate Hf.
  cycle_step (panelDisplay w frame); try discriminate Hf.
  destruct (Verbose options); cbn [app fst snd].
  all: match goal with
       | |- exists before buffer, (_, ?t) = (_, before ++ _) /\ _ =>
           exists (take (length t - 1) t), frame
       end;
    cbn [take length Nat.sub];
    (split; [reflexivity |]); (split; [intros d Hd; absent Hd |]);
    rewrite !elem_of_cons; tauto.
Qed.

(** C8. After a successful display the cycle sleeps once more, as its last
    act: for refresh_rate seconds when 0 < refresh_rate <= 9223372036, the
    range in which the nanosecond count fits a [time.Duration], and for 60
    seconds when refresh_rate is zero, negative or missing. *)
Theorem C8_refresh_interval (w : World) (tmpDir apiKey : string) (options : AppOptions)
    (j : TerminalJSON) :
  firstFailure w tmpDir options = None ->
  responseBody w = Ok j ->
  exists before d,
    processNextImage w tmpDir apiKey options = (Done tt, before ++ [EvSleep d])
    /\ (forall d', EvSleep d' ∉ before)
    /\ (forall r, refresh_rate j = Some r -> 0 < r <= 9223372036 -> d = r * Second)
    /\ (forall r, refresh_rate j = Some r -> r <= 0 -> d = 60 * Second)
    /\ (refresh_rate j = None -> d = 60 * Second).
Proof.
  intros Hf Hbody.
  assert (Hdec : exists terminal,
             Decode w = Ok terminal
             /\ RefreshRate terminal = default 0 (refresh_rate j)
             /\ in_i64 (RefreshRate terminal) = true).
  { unfold firstFailure, attempt in Hf.
    destruct (newRequest w); try discriminate Hf.
    destruct (clientDo w); try discriminate Hf.
    match type of Hf with
    | context [negb ?c] => destruct (negb c)
    end; try discriminate Hf.
    unfold Decode, decodeTerminal in *. rewrite Hbody in *.
    destruct (in_i64 (default 0 (refresh_rate j))) eqn:Hin; try discriminate Hf.
    eexists. split; [reflexivity |]. split; [reflexivity | exact Hin]. }
  destruct Hdec as (terminal & Hdec & Hrate & Hin).
  destruct (displayed_cycle w tmpDir apiKey options terminal Hf Hdec)
    as (before & buffer & Hrun & Honly & _).
  exists before, (i64 (i64 (refreshSeconds terminal) * Second)).
  split; [exact Hrun |]. split; [exact Honly |].
  unfold refreshSeconds, Second. rewrite Hrate.
  split; [| split].
  - intros r -> Hr. cbn [default from_option id]. destruct (Z.leb_spec r 0); [lia |].
    rewrite (i64_small r) by lia. apply i64_small. lia.
  - intros r -> Hr. cbn [default from_option id]. destruct (Z.leb_spec r 0); [| lia]. reflexivity.
  - intros ->. reflexivity.
Qed.

Lemma calm_never_fails j img tmpDir options :
  in_i64 (default 0 (refresh_rate j)) = true ->
  firstFailure (calm 200 j img) tmpDir options = None.
Proof.
  intros Hin. unfold firstFailure, attempt, Decode, decodeTerminal.
  cbn [calm newRequest clientDo responseBody httpGet osCreate ioCopy osOpen
       imageDecode panelDisplay Z.eqb Pos.eqb negb].
  rewrite Hin. destruct (convert_total options img) as [buffer ->]. reflexivity.
Qed.

Lemma C8_refresh_interval_witness :
  exists before d,
    processNextImage (calm 200 scenario1 (solid white)) "/tmp/trmnl-display" "key" quiet
    = (Done tt, before ++ [EvSleep d])
    /\ (forall d', EvSleep d' ∉ before)
    /\ (forall r, refresh_rate scenario1 = Some r -> 0 < r <= 9223372036 -> d = r * Second)
    /\ (forall r, refresh_rate scenario1 = Some r -> r <= 0 -> d = 60 * Second)
    /\ (refresh_rate scenario1 = None -> d = 60 * Second).
Proof.
  apply (C8_refresh_interval (calm 200 scenario1 (solid white)) "/tmp/trmnl-display"
           "key" quiet scenario1).
  - apply calm_never_fails. reflexivity.
  - reflexivity.
Defined.

(** Above that range the sleep is no longer refresh_rate seconds: at
    9223372037 the duration wraps below zero and the sleep returns at
    once. *)
Lemma C8_refresh_interval_overflow :
  exists before d,
    firstFailure (calm 200 longRate (solid white)) "/tmp/trmnl-display" quiet = None
    /\ refresh_rate longRate = Some 9223372037
    /\ processNextImage (calm 200 longRate (solid white)) "/tmp/trmnl-display" "key" quiet
       = (Done tt, before ++ [EvSleep d])
    /\ d = -9223372036709551616
    /\ d <> 9223372037 * Second
    /\ paused d = 0.
Proof.
  assert (Hf : firstFailure (calm 200 longRate (solid white)) "/tmp/trmnl-display" quiet
               = None) by (apply calm_never_fails; reflexivity).
  destruct (displayed_cycle (calm 200 longRate (solid white)) "/tmp/trmnl-display"
              "key" quiet
              {| ImageURL := "http://x/1.png"; Filename := EmptyString;
                 RefreshRate := 9223372037 |} Hf eq_refl)
    as (before & buffer & Hrun & _).
  exists before, (-9223372036709551616).
  split; [exact Hf |]. split; [reflexivity |]. split; [exact Hrun |].
  split; [reflexivity |]. split; [discriminate | reflexivity].
Qed.

Lemma Decode_fields w j :
  responseBody w = Ok j -> in_i64 (default 0 (refresh_rate j)) = true ->
  Decode w = Ok {| ImageURL := default EmptyString (image_url j);
                   Filename := default EmptyString (filename j);
                   RefreshRate := default 0 (refresh_rate j) |}.
Proof.
  intros Hbody Hin. unfold Decode, decodeTerminal. rewrite Hbody, Hin. reflexivity.
Qed.

(** C9. Once the metadata is read and the picture answered, the one file
    the cycle creates is named, inside the working directory, by the
    filename of the metadata when that is not empty, and display.jpg when
    it is empty or missing. *)
Theorem C9_target_filename (w : World) (tmpDir apiKey : string) (options : AppOptions)
    (j : TerminalJSON) :
  newRequest w = Ok tt -> clientDo w = Ok 200 -> responseBody w = Ok j ->
  in_i64 (default 0 (refresh_rate j)) = true ->
  httpGet w (default EmptyString (image_url j)) = Ok tt ->
  exists name,
    EvCreate (pathJoin w tmpDir name) ∈ snd (processNextImage w tmpDir apiKey options)
    /\ (forall p, EvCreate p ∈ snd (processNextImage w tmpDir apiKey options) ->
        p = pathJoin w tmpDir name)
    /\ (forall s, filename j = Some s -> s <> EmptyString -> name = s)
    /\ (filename j = Some EmptyString -> name = "display.jpg")
    /\ (filename j = None -> name = "display.jpg").
Proof.
  intros Hreq Hdo Hbody Hin Hget.
  pose proof (Decode_fields w j Hbody Hin) as Hdec.
  set (terminal := {| ImageURL := default EmptyString (image_url j);
                      Filename := default EmptyString (filename j);
                      RefreshRate := default 0 (refresh_rate j) |}) in *.
  destruct (cycle_prefix w tmpDir apiKey options terminal Hreq Hdo Hdec Hget)
    as (rest & -> & Hrest).
  exists (targetFilename terminal). split; [| split].
  - rewrite !elem_of_cons. tauto.
  - intros p Hp. rewrite !elem_of_cons in Hp.
    destruct Hp as [Hp | [Hp | [Hp | Hp]]]; try discriminate Hp.
    + injection Hp as ->. reflexivity.
    + exfalso. exact (Hrest p Hp).
  - unfold targetFilename, terminal. cbn [Filename].
    split; [| split].
    + intros s -> Hs. cbn [default from_option id].
      destruct (String.eqb_spec s EmptyString); [contradiction | reflexivity].
    + intros ->. reflexivity.
    + intros ->. reflexivity.
Qed.

Lemma C9_target_filename_witness :
  exists name,
    EvCreate (pathJoin (calm 200 scenario1 (solid white)) "/tmp/trmnl-display" name)
      ∈ snd (processNextImage (calm 200 scenario1 (solid white))
               "/tmp/trmnl-display" "key" quiet)
    /\ (forall p,
          EvCreate p ∈ snd (processNextImage (calm 200 scenario1 (solid white))
                              "/tmp/trmnl-display" "key" quiet) ->
          p = pathJoin (calm 200 scenario1 (solid white)) "/tmp/trmnl-display" name)
    /\ (forall s, filename scenario1 = Some s -> s <> EmptyString -> name = s)
    /\ (filename scenario1 = Some EmptyString -> name = "display.jpg")
    /\ (filename scenario1 = None -> name = "display.jpg").
Proof.
  apply (C9_target_filename (calm 200 scenario1 (solid white)) "/tmp/trmnl-display"
           "key" quiet scenario1); reflexivity.
Defined.

(** C3. In the cycle of the first scenario the metadata request goes out
    with a timeout of 30 seconds, and the request for the picture with a
    timeout of zero, which for Go's client means none: a picture host that
    never answers holds the cycle for good. *)
Theorem C3_image_download_unbounded :
  (EvRequest endpoint (30 * Second)
     ∈ snd (processNextImage (calm 200 scenario1 (solid white))
              "/tmp/trmnl-display" "key" quiet))
  /\ (EvRequest "http://x/1.png" 0
     ∈ snd (processNextImage (calm 200 scenario1 (solid white))
              "/tmp/trmnl-display" "key" quiet)).
Proof.
  destruct (cycle_prefix (calm 200 scenario1 (solid white)) "/tmp/trmnl-display"
              "key" quiet
              {| ImageURL := "http://x/1.png"; Filename := EmptyString;
                 RefreshRate := 30 |} eq_refl eq_refl eq_refl eq_refl)
    as (rest & -> & _).
  cbn [ImageURL]. rewrite !elem_of_cons. split.
  - left. reflexivity.
  - right. left. reflexivity.
Qed.

(** ** The process and its signals *)

Lemma main_installs_no_handler : notified (run main) = [].
Proof. reflexivity. Qed.

Lemma main_reaches_loop : panelState (run main) = Displaying.
Proof. reflexivity. Qed.

(** The handler does put the panel to sleep where it is installed. *)
Lemma handler_sleeps_panel s :
  panelState (deliver s (exec (run main) setupSignalHandling)) = Asleep.
Proof. destruct s; reflexivity. Qed.

(** C1. [main] never calls [setupSignalHandling]: no signal is notified
    when the loop runs, and SIGINT, SIGTERM or SIGHUP then end the process
    with the panel left as it was, not asleep. *)
Theorem C1_signal_leaves_panel_awake (s : signal) :
  (setupSignalHandling ∉ main)
  /\ notified (run main) = []
  /\ ending (deliver s (run main)) = Killed s
  /\ panelState (deliver s (run main)) = Displaying
  /\ panelState (deliver s (run main)) <> Asleep.
Proof.
  split.
  - intros H. unfold main in H. absent H.
  - destruct s; repeat split; try reflexivity; discriminate.
Qed.

(** * Further properties of the converter *)

(** Every colour with 8-bit channels yields 16-bit channels no larger than
    its alpha, so the luma sum never wraps: the grayscale value is the
    plain quotient, and fits 8 bits. *)
Theorem pixel_gray_exact (c : NRGBA) :
  wf_color c ->
  let '(r, g, b, a) := RGBA c in
  (0 <= r <= a /\ 0 <= g <= a /\ 0 <= b <= a /\ a = cA c * 257 /\ a <= 65535)
  /\ gray_of c = (r * 299 + g * 587 + b * 114) / 1000 / 256
  /\ 0 <= gray_of c <= 255.
Proof.
  intros (Hr & Hg & Hb & Ha). unfold gray_of, RGBA.
  assert (Halpha : Z.lor (cA c) (u32 (Z.shiftl (cA c) 8)) = cA c * 257).
  { rewrite u32_small; [apply lor_shiftl_8; assumption |].
    rewrite Z.shiftl_mul_pow2 by lia. change (2 ^ 8) with 256. lia. }
  rewrite Halpha.
  assert (Hle : forall v, 0 <= v < 256 -> 0 <= expand v (cA c) <= cA c * 257).
  { intros v Hv. rewrite expand_eq by assumption. split.
    - apply Z.div_pos; nia.
    - apply Z.div_le_upper_bound; nia. }
  pose proof (Hle _ Hr). pose proof (Hle _ Hg). pose proof (Hle _ Hb).
  split; [repeat split; lia |].
  apply luma_exact; lia.
Qed.

Lemma pixel_gray_exact_witness :
  let '(r, g, b, a) := RGBA white in
  (0 <= r <= a /\ 0 <= g <= a /\ 0 <= b <= a /\ a = cA white * 257 /\ a <= 65535)
  /\ gray_of white = (r * 299 + g * 587 + b * 114) / 1000 / 256
  /\ 0 <= gray_of white <= 255.
Proof. apply (pixel_gray_exact white). unfold wf_color, white. simpl. lia. Defined.

(** An opaque gray pixel keeps its level: the threshold is a threshold on
    the 8-bit level, which is ink without dark mode exactly below 128. *)
Theorem opaque_gray_level (v : Z) :
  0 <= v < 256 ->
  gray_of {| cR := v; cG := v; cB := v; cA := 255 |} = v
  /\ (monoValue {| DarkMode := false; Verbose := true |}
        (gray_of {| cR := v; cG := v; cB := v; cA := 255 |}) = 0 <-> v < 128).
Proof.
  intros Hv.
  assert (Hgray : gray_of {| cR := v; cG := v; cB := v; cA := 255 |} = v).
  { unfold gray_of, RGBA. cbn [cR cG cB cA].
    assert (He : expand v 255 = v * 257).
    { rewrite expand_eq by lia. apply Z.div_mul. lia. }
    rewrite He.
    destruct (luma_exact (v * 257) (v * 257) (v * 257)) as [-> _]; try lia.
    replace (v * 257 * 299 + v * 257 * 587 + v * 257 * 114) with (v * 257 * 1000) by lia.
    rewrite Z.div_mul by lia.
    replace (v * 257) with (v + v * 256) by lia.
    rewrite Z.div_add by lia. rewrite Z.div_small by lia. lia. }
  split; [exact Hgray |]. rewrite Hgray.
  unfold monoValue, threshold. cbn [DarkMode].
  destruct (Z.leb_spec 128 v); split; intros H'; try lia; reflexivity.
Qed.

Lemma opaque_gray_level_witness :
  gray_of {| cR := 127; cG := 127; cB := 127; cA := 255 |} = 127
  /\ (monoValue {| DarkMode := false; Verbose := true |}
        (gray_of {| cR := 127; cG := 127; cB := 127; cA := 255 |}) = 0 <-> 127 < 128).
Proof. apply (opaque_gray_level 127). lia. Defined.

(** A fully transparent pixel has grayscale value 0 whatever its colour:
    it is ink without dark mode and paper with it. *)
Theorem transparent_pixel_is_black (c : NRGBA) (verbose : bool) :
  wf_color c -> cA c = 0 ->
  gray_of c = 0
  /\ monoValue {| DarkMode := false; Verbose := verbose |} (gray_of c) = 0
  /\ monoValue {| DarkMode := true; Verbose := verbose |} (gray_of c) = 255.
Proof.
  intros (Hr & Hg & Hb & _) Ha.
  assert (Hgray : gray_of c = 0).
  { unfold gray_of, RGBA. rewrite Ha.
    assert (He : forall v, 0 <= v < 256 -> expand v 0 = 0).
    { intros v Hv. rewrite expand_eq by lia. rewrite Z.mul_0_r. reflexivity. }
    rewrite !He by assumption. reflexivity. }
  rewrite Hgray. repeat split.
Qed.

Lemma transparent_pixel_is_black_witness :
  gray_of {| cR := 255; cG := 255; cB := 255; cA := 0 |} = 0
  /\ monoValue {| DarkMode := false; Verbose := true |}
       (gray_of {| cR := 255; cG := 255; cB := 255; cA := 0 |}) = 0
  /\ monoValue {| DarkMode := true; Verbose := true |}
       (gray_of {| cR := 255; cG := 255; cB := 255; cA := 0 |}) = 255.
Proof.
  apply (transparent_pixel_is_black {| cR := 255; cG := 255; cB := 255; cA := 0 |} true).
  - unfold wf_color. simpl. lia.
  - reflexivity.
Defined.

(** Brightening a pixel never darkens its result: the grayscale value
    grows with each channel, and without dark mode so does the stored
    value. *)
Theorem luma_monotone (r g b r' g' b' : Z) (verbose : bool) :
  0 <= r <= r' -> r' <= 65535 ->
  0 <= g <= g' -> g' <= 65535 ->
  0 <= b <= b' -> b' <= 65535 ->
  luma r g b <= luma r' g' b'
  /\ monoValue {| DarkMode := false; Verbose := verbose |} (luma r g b)
     <= monoValue {| DarkMode := false; Verbose := verbose |} (luma r' g' b').
Proof.
  intros Hr Hr' Hg Hg' Hb Hb'.
  destruct (luma_exact r g b) as [E1 _]; try lia.
  destruct (luma_exact r' g' b') as [E2 _]; try lia.
  assert (Hle : luma r g b <= luma r' g' b').
  { rewrite E1, E2. apply Z.div_le_mono; [lia |]. apply Z.div_le_mono; lia. }
  split; [exact Hle |].
  unfold monoValue, threshold. cbn [DarkMode].
  destruct (Z.leb_spec 128 (luma r g b)), (Z.leb_spec 128 (luma r' g' b')); lia.
Qed.

Lemma luma_monotone_witness :
  luma 100 200 300 <= luma 40000 50000 60000
  /\ monoValue {| DarkMode := false; Verbose := true |} (luma 100 200 300)
     <= monoValue {| DarkMode := false; Verbose := true |} (luma 40000 50000 60000).
Proof. apply (luma_monotone 100 200 300 40000 50000 60000 true); lia. Defined.

(** The monochrome image has the bounds of the resized one, its pixel
    slice covers them, and it holds no value but 0 and 255. *)
Theorem monochrome_two_valued (options : AppOptions) (img : Image) (x y : Z) :
  0 <= Dx img -> 0 <= Dy img ->
  gDx (toMonochrome options img) = Dx img
  /\ gDy (toMonochrome options img) = Dy img
  /\ wfGray (toMonochrome options img)
  /\ (GrayAt (toMonochrome options img) x y = 0
      \/ GrayAt (toMonochrome options img) x y = 255).
Proof.
  intros Hw Hh. destruct (toMonochrome_bounds options img) as [Ex Ey].
  split; [exact Ex |]. split; [exact Ey |]. split.
  - unfold toMonochrome. apply rows_wf. apply wfGray_NewGray; assumption.
  - destruct (inBounds (toMonochrome options img) x y) eqn:Hin.
    + apply inBounds_spec in Hin. rewrite Ex, Ey in Hin.
      rewrite toMonochrome_pixel by lia.
      unfold monoValue.
      destruct (DarkMode options);
        match goal with |- context [if ?c then _ else _] => destruct c end; auto.
    + left. unfold GrayAt. rewrite Hin. reflexivity.
Qed.

Lemma monochrome_two_valued_witness :
  gDx (toMonochrome quiet checker) = Dx checker
  /\ gDy (toMonochrome quiet checker) = Dy checker
  /\ wfGray (toMonochrome quiet checker)
  /\ (GrayAt (toMonochrome quiet checker) 3 1 = 0
      \/ GrayAt (toMonochrome quiet checker) 3 1 = 255).
Proof.
  apply (monochrome_two_valued quiet checker 3 1);
    change (Dx checker) with 16; change (Dy checker) with 2; lia.
Defined.

Lemma byte_of_low_bits b :
  (forall k, 8 <= k -> Z.testbit b k = false) -> isByte b.
Proof.
  intros Hhigh.
  assert (Hb : b = b mod 2 ^ 8).
  { apply Z.bits_inj'. intros k Hk. destruct (Z_lt_le_dec k 8).
    - rewrite Z.mod_pow2_bits_low by lia. reflexivity.
    - rewrite Z.mod_pow2_bits_high by lia. apply Hhigh. lia. }
  pose proof (Z.mod_pos_bound b (2 ^ 8) ltac:(lia)) as Hrange.
  rewrite <- Hb in Hrange. change (2 ^ 8) with 256 in Hrange.
  unfold isByte. lia.
Qed.

Lemma packFrame_bytes cfg monoImg :
  0 <= Width cfg -> 0 <= Height cfg -> Width cfg mod 8 = 0 ->
  exists buffer,
    packFrame cfg monoImg = Some buffer
    /\ Z.of_nat (length buffer) = Width cfg * Height cfg / 8
    /\ Forall isByte buffer.
Proof.
  intros Hw Hh H8.
  destruct (packFrame_spec cfg monoImg Hw Hh H8) as (buffer & Hrun & Hlen & _ & Hset).
  exists buffer. split; [exact Hrun |]. split.
  - rewrite Hlen. rewrite Z.quot_div_nonneg by nia.
    apply Z2Nat.id. apply Z.div_pos; nia.
  - apply Forall_lookup. intros n b Hb. apply byte_of_low_bits. intros k Hk.
    destruct (Z.testbit b k) eqn:Hbit; [| reflexivity].
    assert (Hfb : frameBit buffer (Z.of_nat n) k = true).
    { unfold frameBit. rewrite Nat2Z.id, Hb. exact Hbit. }
    apply Hset in Hfb; [| lia | lia].
    destruct Hfb as (x & y & Hx & _ & _ & _ & Hp).
    pose proof (Z.mod_pos_bound x 8 ltac:(lia)). lia.
Qed.

Lemma Resize_panel_dims img :
  0 < Dx img -> 0 < Dy img ->
  Dx (Resize img (Width spiConfig) (Height spiConfig)) = 800
  /\ Dy (Resize img (Width spiConfig) (Height spiConfig)) = 480.
Proof.
  intros Hx Hy. unfold Resize.
  change (Width spiConfig) with 800. change (Height spiConfig) with 480.
  cbn [Z.ltb Z.eqb Z.compare orb andb].
  destruct (Z.leb_spec (Dx img) 0) as [Hle | _]; [lia |].
  destruct (Z.leb_spec (Dy img) 0) as [Hle | _]; [lia |].
  cbn [orb].
  destruct (Z.eqb_spec (Dx img) 800) as [Ex | _]; cbn [andb]; [| split; reflexivity].
  destruct (Z.eqb_spec (Dy img) 480) as [Ey | _]; [| split; reflexivity].
  split; assumption.
Qed.

(** Whatever the decoded picture, its size included, and whatever the
    options, the converter reaches [display.Display]: no index leaves the
    buffer, which has 48000 entries, each a byte. A picture that is not
    empty is resized to the 800x480 of the panel first. *)
Theorem convert_frame_shape (options : AppOptions) (img : Image) :
  exists buffer,
    convert options img = Some buffer
    /\ Z.of_nat (length buffer) = 48000
    /\ Forall isByte buffer
    /\ (0 < Dx img -> 0 < Dy img ->
        Dx (Resize img (Width spiConfig) (Height spiConfig)) = 800
        /\ Dy (Resize img (Width spiConfig) (Height spiConfig)) = 480).
Proof.
  unfold convert.
  destruct (packFrame_bytes spiConfig
              (toMonochrome options (Resize img (Width spiConfig) (Height spiConfig)))
              spi_width_nonneg spi_height_nonneg spi_width_bytes)
    as (buffer & Hrun & Hlen & Hbytes).
  exists buffer. split; [exact Hrun |]. split; [| split; [exact Hbytes |]].
  - rewrite Hlen. reflexivity.
  - apply Resize_panel_dims.
Qed.



Lemma forM_snoc {S A : Type} (body : S -> A -> option S) l a s :
  forM body (l ++ [a]) s
  = match forM body l s with
    | Some s' => body s' a
    | None => None
    end.
Proof.
  revert s. induction l as [| b l IH]; intros s; simpl.
  - destruct (body s a); reflexivity.
  - destruct (body s b); [apply IH | reflexivity].
Qed.

Lemma range_snoc n : 0 < n -> range n = range (n - 1) ++ [n - 1].
Proof.
  intros Hn. unfold range.
  replace (Z.to_nat n) with (Z.to_nat (n - 1) + 1)%nat by lia.
  rewrite seq_app, fmap_app. simpl. f_equal. f_equal. lia.
Qed.

Lemma packPixel_length cfg monoImg y buffer x buffer' :
  packPixel cfg monoImg y buffer x = Some buffer' -> length buffer' = length buffer.
Proof.
  unfold packPixel. destruct (GrayAt monoImg x y =? 0).
  - destruct (_ <? 0); [discriminate |].
    destruct (buffer !! _); [| discriminate].
    intros [= <-]. apply length_insert.
  - intros [= <-]. reflexivity.
Qed.

Lemma packRow_part_length cfg monoImg y xs : forall buffer buffer',
  forM (packPixel cfg monoImg y) xs buffer = Some buffer' ->
  length buffer' = length buffer.
Proof.
  induction xs as [| x xs IH]; intros buffer buffer'; simpl.
  - intros [= <-]. reflexivity.
  - destruct (packPixel cfg monoImg y buffer x) as [b1 |] eqn:H1; [| discriminate].
    intros H2. rewrite (IH _ _ H2). apply (packPixel_length _ _ _ _ _ _ H1).
Qed.

Lemma packRows_part_length cfg monoImg ys : forall buffer buffer',
  forM (packRow cfg monoImg) ys buffer = Some buffer' ->
  length buffer' = length buffer.
Proof.
  induction ys as [| y ys IH]; intros buffer buffer'; simpl.
  - intros [= <-]. reflexivity.
  - destruct (packRow cfg monoImg buffer y) as [b1 |] eqn:H1; [| discriminate].
    intros H2. rewrite (IH _ _ H2). apply (packRow_part_length _ _ _ _ _ _ H1).
Qed.

(** When the area of the panel is no multiple of 8 the buffer is one byte
    short: an ink pixel in the last place makes the loop index past its
    end, a panic. *)
Theorem packFrame_short_buffer_panics (cfg : SPIConfig) (monoImg : Gray) :
  0 < Width cfg -> 0 < Height cfg ->
  (Width cfg * Height cfg) mod 8 <> 0 ->
  ink monoImg (Width cfg - 1) (Height cfg - 1) = true ->
  packFrame cfg monoImg = None.
Proof.
  intros Hw Hh Harea Hink. unfold packFrame.
  set (init := replicate (Z.to_nat (Width cfg * Height cfg ÷ 8)) 0).
  assert (Hinit : length init = Z.to_nat (Width cfg * Height cfg ÷ 8))
    by apply length_replicate.
  rewrite (range_snoc (Height cfg) Hh), forM_snoc.
  destruct (forM (packRow cfg monoImg) (range (Height cfg - 1)) init)
    as [b1 |] eqn:H1; [| reflexivity].
  apply packRows_part_length in H1.
  unfold packRow. rewrite (range_snoc (Width cfg) Hw), forM_snoc.
  destruct (forM (packPixel cfg monoImg (Height cfg - 1)) (range (Width cfg - 1)) b1)
    as [b2 |] eqn:H2; [| reflexivity].
  apply packRow_part_length in H2.
  unfold packPixel. unfold ink in Hink. rewrite Hink.
  set (area := Width cfg * Height cfg) in *.
  replace ((Height cfg - 1) * Width cfg + (Width cfg - 1)) with (area - 1)
    by (unfold area; lia).
  assert (Harea0 : 0 < area) by (unfold area; nia).
  rewrite Z.quot_div_nonneg by lia.
  assert (Hq : (area - 1) / 8 = area / 8).
  { pose proof (Z.div_mod area 8 ltac:(lia)) as E.
    pose proof (Z.mod_pos_bound area 8 ltac:(lia)) as B.
    symmetry. apply (Z.div_unique (area - 1) 8 (area / 8) (area mod 8 - 1)); lia. }
  rewrite Hq.
  destruct (Z.ltb_spec (area / 8) 0) as [_ | _]; [reflexivity |].
  rewrite lookup_ge_None_2; [reflexivity |].
  rewrite H2, H1, Hinit. rewrite Z.quot_div_nonneg by lia. lia.
Qed.

Lemma packFrame_short_buffer_panics_witness :
  packFrame cfg3x1 (NewGray 3 1) = None.
Proof.
  apply (packFrame_short_buffer_panics cfg3x1 (NewGray 3 1));
    change (Width cfg3x1) with 3; change (Height cfg3x1) with 1;
    [lia | lia | discriminate | reflexivity].
Defined.

(** * Further properties of the refresh cycle *)

Ltac trace_facts := cbn [sleeps logs effects omap List.filter isLog negb last
                         list_omap option_bind mbind app]; repeat split.

(** One case analysis of the whole cycle, from which the statements below
    are read. *)
Lemma cycle_shape w tmpDir apiKey options :
  exists t,
    processNextImage w tmpDir apiKey options = (Done tt, t)
    /\ match firstFailure w tmpDir options with
       | Some f =>
           sleeps t = [60 * Second]
           /\ last t = Some (EvSleep (60 * Second))
           /\ (Verbose options = false -> logs t = [report f])
       | None =>
           exists terminal img buffer,
             Decode w = Ok terminal /\ imageDecode w = Ok img
             /\ convert options img = Some buffer
             /\ sleeps t = [i64 (i64 (refreshSeconds terminal) * Second)]
             /\ last t = Some (EvSleep (i64 (i64 (refreshSeconds terminal) * Second)))
             /\ effects t
                = [EvRequest endpoint (30 * Second);
                   EvRequest (ImageURL terminal) 0;
                   EvCreate (pathJoin w tmpDir (targetFilename terminal));
                   EvCopy (pathJoin w tmpDir (targetFilename terminal));
                   EvOpen (pathJoin w tmpDir (targetFilename terminal));
                   EvDecode (pathJoin w tmpDir (targetFilename terminal));
                   EvDisplay buffer;
                   EvSleep (i64 (i64 (refreshSeconds terminal) * Second))]
             /\ (Verbose options = false -> logs t = [])
       end.
Proof.
  destruct options as [dark verbose].
  unfold processNextImage, processNextImage_body, displayImage, firstFailure,
    attempt, cooldown, Printf, Sleep, emit, call, ret, panic, bind.
  rewrite ?thirty_seconds, ?sixty_seconds_ns.
  change (60 * Second) with 60000000000. change (30 * Second) with 30000000000.
  cbn [Verbose].
  destruct (newRequest w); cbn [app];
    [| eexists; split; [reflexivity | trace_facts] ..].
  destruct (clientDo w) as [code | |]; cbn [app];
    [| eexists; split; [reflexivity | trace_facts] ..].
  destruct (code =? 200); cbn [app negb];
    [| eexists; split; [reflexivity | trace_facts]].
  destruct (Decode w) as [terminal | |]; cbn [app];
    [| eexists; split; [reflexivity | trace_facts] ..].
  destruct (httpGet w (ImageURL terminal)); cbn [app];
    [| eexists; split; [reflexivity | trace_facts] ..].
  destruct (osCreate w (pathJoin w tmpDir (targetFilename terminal))); cbn [app];
    [| eexists; split; [reflexivity | trace_facts] ..].
  destruct (ioCopy w); cbn [app];
    [| eexists; split; [reflexivity | trace_facts] ..].
  destruct (osOpen w (pathJoin w tmpDir (targetFilename terminal))); cbn [app];
    [| eexists; split; [reflexivity | trace_facts] ..].
  destruct verbose; cbn [app].
  all: destruct (imageDecode w) as [img | |]; cbn [app];
    [| eexists; split; [reflexivity | trace_facts; try discriminate] ..].
  all: destruct (convert {| DarkMode := dark; Verbose := _ |} img) as [buffer |]
         eqn:Hconv;
    cbn [app]; [| eexists; split; [reflexivity | trace_facts; try discriminate]].
  all: destruct (panelDisplay w buffer); cbn [app];
    [| eexists; split; [reflexivity | trace_facts; try discriminate] ..].
  all: eexists; split; [reflexivity |]; exists terminal, img, buffer;
    trace_facts; try discriminate; exact Hconv.
Qed.

(** Whatever the world answers, panics included, a cycle returns normally
    and sleeps exactly once, as its last act; after a failure the sleep is
    60 seconds. *)
Theorem cycle_ends_on_its_one_sleep (w : World) (tmpDir apiKey : string)
    (options : AppOptions) :
  exists t d,
    processNextImage w tmpDir apiKey options = (Done tt, t)
    /\ sleeps t = [d]
    /\ last t = Some (EvSleep d)
    /\ (firstFailure w tmpDir options <> None -> d = 60 * Second).
Proof.
  destruct (cycle_shape w tmpDir apiKey options) as (t & Hrun & Hshape).
  destruct (firstFailure w tmpDir options) as [f |].
  - destruct Hshape as (Hs & Hl & _).
    exists t, (60 * Second). auto.
  - destruct Hshape as (terminal & img & buffer & _ & _ & _ & Hs & Hl & _).
    exists t, (i64 (i64 (refreshSeconds terminal) * Second)).
    repeat split; try assumption. intros H. contradiction.
Qed.

Lemma sleeps_app t1 t2 : sleeps (t1 ++ t2) = sleeps t1 ++ sleeps t2.
Proof. unfold sleeps. apply omap_app. Qed.

(** The loop of [main] over any number of turns: no turn ends it, and the
    trace holds one sleep for each turn. *)
Theorem loop_sleeps_every_turn (ws : list World) (tmpDir apiKey : string)
    (options : AppOptions) :
  exists t,
    cycles ws tmpDir apiKey options = (Done tt, t)
    /\ length (sleeps t) = length ws.
Proof.
  induction ws as [| w ws IH]; simpl.
  - exists []. split; reflexivity.
  - destruct IH as (t2 & Hrest & Hlen).
    destruct (cycle_shape w tmpDir apiKey options) as (t1 & Hrun & Hshape).
    assert (Hone : length (sleeps t1) = 1%nat).
    { destruct (firstFailure w tmpDir options).
      - destruct Hshape as (-> & _). reflexivity.
      - destruct Hshape as (? & ? & ? & _ & _ & _ & -> & _). reflexivity. }
    unfold bind. rewrite Hrun, Hrest. exists (t1 ++ t2). split; [reflexivity |].
    rewrite sleeps_app, length_app, Hone, Hlen. reflexivity.
Qed.

(** A cycle in which nothing fails makes these calls, in this order and
    no others: the metadata request, the picture request, the file
    created, filled, opened and decoded, one write to the panel, of the
    converted picture, and the sleep. *)
Theorem displayed_cycle_calls (w : World) (tmpDir apiKey : string) (options : AppOptions) :
  firstFailure w tmpDir options = None ->
  exists terminal img buffer,
    Decode w = Ok terminal /\ imageDecode w = Ok img
    /\ convert options img = Some buffer
    /\ effects (snd (processNextImage w tmpDir apiKey options))
       = [EvRequest endpoint (30 * Second);
          EvRequest (ImageURL terminal) 0;
          EvCreate (pathJoin w tmpDir (targetFilename terminal));
          EvCopy (pathJoin w tmpDir (targetFilename terminal));
          EvOpen (pathJoin w tmpDir (targetFilename terminal));
          EvDecode (pathJoin w tmpDir (targetFilename terminal));
          EvDisplay buffer;
          EvSleep (i64 (i64 (refreshSeconds terminal) * Second))].
Proof.
  intros Hf.
  destruct (cycle_shape w tmpDir apiKey options) as (t & Hrun & Hshape).
  rewrite Hf in Hshape.
  destruct Hshape as (terminal & img & buffer & Hdec & Himg & Hconv & _ & _ & He & _).
  exists terminal, img, buffer. rewrite Hrun. auto.
Qed.

Lemma displayed_cycle_calls_witness :
  exists terminal img buffer,
    Decode (calm 200 scenario1 (solid white)) = Ok terminal
    /\ imageDecode (calm 200 scenario1 (solid white)) = Ok img
    /\ convert quiet img = Some buffer
    /\ effects (snd (processNextImage (calm 200 scenario1 (solid white))
                       "/tmp/trmnl-display" "key" quiet))
       = [EvRequest endpoint (30 * Second);
          EvRequest (ImageURL terminal) 0;
          EvCreate (pathJoin (calm 200 scenario1 (solid white)) "/tmp/trmnl-display"
                      (targetFilename terminal));
          EvCopy (pathJoin (calm 200 scenario1 (solid white)) "/tmp/trmnl-display"
                    (targetFilename terminal));
          EvOpen (pathJoin (calm 200 scenario1 (solid white)) "/tmp/trmnl-display"
                    (targetFilename terminal));
          EvDecode (pathJoin (calm 200 scenario1 (solid white)) "/tmp/trmnl-display"
                      (targetFilename terminal));
          EvDisplay buffer;
          EvSleep (i64 (i64 (refreshSeconds terminal) * Second))].
Proof.
  apply (displayed_cycle_calls (calm 200 scenario1 (solid white)) "/tmp/trmnl-display"
           "key" quiet).
  apply calm_never_fails. reflexivity.
Defined.

(** Any status other than 200, the other 2xx included, fails the cycle at
    once: one request, one line, the 60 second sleep; no picture is asked
    for, no file made, nothing written to the panel. *)
Theorem status_not_200_stops_cycle (w : World) (tmpDir apiKey : string)
    (options : AppOptions) (code : Z) :
  newRequest w = Ok tt -> clientDo w = Ok code -> code <> 200 ->
  processNextImage w tmpDir apiKey options
  = (Done tt,
     [EvRequest endpoint (30 * Second);
      EvLog ("Error fetching display: status code " +:+ pretty code +:+ nl);
      EvSleep (60 * Second)]).
Proof.
  intros Hreq Hdo Hcode.
  unfold processNextImage, processNextImage_body, cooldown, Printf, Sleep, emit,
    call, bind.
  rewrite Hreq, Hdo. apply Z.eqb_neq in Hcode. rewrite Hcode. reflexivity.
Qed.

Lemma status_not_200_stops_cycle_witness :
  processNextImage (calm 204 scenario1 (solid white)) "/tmp/trmnl-display" "key" quiet
  = (Done tt,
     [EvRequest endpoint (30 * Second);
      EvLog ("Error fetching display: status code " +:+ pretty 204 +:+ nl);
      EvSleep (60 * Second)]).
Proof.
  apply (status_not_200_stops_cycle (calm 204 scenario1 (solid white))
           "/tmp/trmnl-display" "key" quiet 204);
    [reflexivity | reflexivity | discriminate].
Defined.

(** With verbose output off a cycle prints nothing when it succeeds, and
    when it fails exactly the line of its failure: quiet mode does not
    silence errors. *)
Theorem quiet_cycle_prints_only_failures (w : World) (tmpDir apiKey : string)
    (options : AppOptions) :
  Verbose options = false ->
  logs (snd (processNextImage w tmpDir apiKey options))
  = match firstFailure w tmpDir options with
    | Some f => [report f]
    | None => []
    end.
Proof.
  intros Hq.
  destruct (cycle_shape w tmpDir apiKey options) as (t & Hrun & Hshape).
  rewrite Hrun. cbn [snd].
  destruct (firstFailure w tmpDir options).
  - destruct Hshape as (_ & _ & Hlogs). apply Hlogs, Hq.
  - destruct Hshape as (? & ? & ? & _ & _ & _ & _ & _ & _ & Hlogs). apply Hlogs, Hq.
Qed.

Lemma quiet_cycle_prints_only_failures_witness :
  logs (snd (processNextImage (calm 500 scenario1 (solid white))
               "/tmp/trmnl-display" "key" quiet))
  = match firstFailure (calm 500 scenario1 (solid white)) "/tmp/trmnl-display" quiet with
    | Some f => [report f]
    | None => []
    end.
Proof.
  apply (quiet_cycle_prints_only_failures (calm 500 scenario1 (solid white))
           "/tmp/trmnl-display" "key" quiet).
  reflexivity.
Defined.

(** * Start-up *)

Example first_start_runs :
  Boot.process Boot.firstStart
  = ([Boot.PanelInit 17 25 8 24;
      Boot.Print ("Waveshare 7.5" +:+ dquote
                  +:+ " e-ink display (V2) initialized successfully" +:+ nl);
      Boot.MkdirAll "/home/pi/.trmnl" 493;
      Boot.ReadFile "/home/pi/.trmnl/config.json";
      Boot.Print ("TRMNL API Key not found." +:+ nl);
      Boot.Print "Please enter your TRMNL API Key: ";
      Boot.Scanln;
      Boot.WriteFile "/home/pi/.trmnl/config.json" "{ APIKey: typed-key }" 384;
      Boot.MkdirTemp EmptyString "trmnl-display";
      Boot.Print ("Clearing e-ink display..." +:+ nl);
      Boot.PanelClear 255],
     Boot.Loop "/tmp/trmnl-display1" "typed-key"
       {| DarkMode := false; Verbose := true |}).
Proof. reflexivity. Qed.

Example homeless_exits :
  Boot.process Boot.homeless
  = ([Boot.PanelInit 17 25 8 24;
      Boot.Print ("Waveshare 7.5" +:+ dquote
                  +:+ " e-ink display (V2) initialized successfully" +:+ nl);
      Boot.Print ("Error getting home directory: $HOME is not defined" +:+ nl)],
     Boot.Exit 1).
Proof. reflexivity. Qed.

Ltac boot_unfold :=
  unfold Boot.process, Boot.main, Boot.parseCommandLineArgs, Boot.initDisplay,
    Boot.loadConfig, Boot.resolveKey, Boot.saveConfig, Boot.clearDisplay,
    Boot.storedKey in *.

Ltac boot_case :=
  match goal with
  | |- context [Boot.flagParse ?h] =>
      destruct (Boot.flagParse h) as [? | ?] eqn:?
  | |- context [if Boot.showVersion ?f then _ else _] =>
      destruct (Boot.showVersion f) eqn:?
  | |- context [match Boot.displayInit ?h with _ => _ end] =>
      destruct (Boot.displayInit h) eqn:?
  | |- context [match Boot.userHomeDir ?h with _ => _ end] =>
      destruct (Boot.userHomeDir h) eqn:?
  | |- context [match Boot.mkdirAll ?h ?d ?p with _ => _ end] =>
      destruct (Boot.mkdirAll h d p) eqn:?
  | |- context [match Boot.readFile ?h ?p with _ => _ end] =>
      destruct (Boot.readFile h p) eqn:?
  | |- context [if String.eqb ?a ?b then _ else _] =>
      destruct (String.eqb_spec a b)
  | |- context [match Boot.marshalIndent ?h ?c with _ => _ end] =>
      destruct (Boot.marshalIndent h c) eqn:?
  | |- context [match Boot.writeFile ?h ?p ?d ?m with _ => _ end] =>
      destruct (Boot.writeFile h p d m) eqn:?
  | |- context [match Boot.mkdirTemp ?h ?d ?p with _ => _ end] =>
      destruct (Boot.mkdirTemp h d p) eqn:?
  | |- context [match Boot.displayClear ?h ?v with _ => _ end] =>
      destruct (Boot.displayClear h v) eqn:?
  end; cbn [app fst snd Boot.APIKey] in *.

Ltac boot_cases := boot_unfold; repeat boot_case.

Ltac not_among H :=
  repeat (apply elem_of_cons in H as [H | H]; [discriminate H |]);
  apply elem_of_nil in H; exact H.

(** No run of [main] reaches a return: each path ends in [os.Exit] or in
    the endless loop. So neither deferred call ever runs: [main] does not
    put the panel to sleep and does not remove the temporary directory. *)
Theorem boot_never_runs_deferred (h : Boot.Host) :
  snd (Boot.process h) <> Boot.Return
  /\ (Boot.PanelSleep ∉ fst (Boot.process h))
  /\ (forall path, Boot.RemoveAll path ∉ fst (Boot.process h)).
Proof.
  boot_cases.
  all: split; [discriminate |]; split; [intros H; not_among H |];
    intros path H; not_among H.
Qed.

(** The loop is reached exactly when the flags parse without asking for
    the version, the display initialises, the home directory is found, the
    config directory can be made and so can the temporary one. A config
    file that cannot be read, a key that cannot be saved and a clear that
    fails do not stand in the way. *)
Theorem boot_loop_reached_iff (h : Boot.Host) :
  (exists tmpDir apiKey options,
     snd (Boot.process h) = Boot.Loop tmpDir apiKey options)
  <->
  ((exists f, Boot.flagParse h = inl f /\ Boot.showVersion f = false)
   /\ Boot.displayInit h = None
   /\ (exists home, Boot.userHomeDir h = Boot.Fine home
                    /\ Boot.mkdirAll h (Boot.join h home ".trmnl") 493 = None)
   /\ (exists tmpDir, Boot.mkdirTemp h EmptyString "trmnl-display" = Boot.Fine tmpDir)).
Proof.
  boot_cases.
  all: split;
    [ intros (tmpDir & apiKey & options & Hloop); try discriminate Hloop;
      repeat split; eauto
    | intros ((f0 & Hflag & Hver) & Hinit & (home & Hhome & Hmk) & (tmp & Htmp));
      try discriminate; try congruence; eauto ].
Qed.

(** When start-up ends in an exit the panel is never cleared nor put to
    sleep. Either it was not touched at all, the flag package or the
    version query ending the process, or it was initialised and left so,
    and the status is 1. *)
Theorem boot_exit_leaves_panel (h : Boot.Host) (code : Z) :
  snd (Boot.process h) = Boot.Exit code ->
  (Boot.panelActs (fst (Boot.process h)) = []
   /\ (Boot.flagParse h = inr code
       \/ exists f, Boot.flagParse h = inl f /\ Boot.showVersion f = true /\ code = 0))
  \/ (Boot.panelActs (fst (Boot.process h)) = [Boot.PanelInit 17 25 8 24]
      /\ code = 1).
Proof.
  boot_cases.
  all: intros Hexit; try discriminate Hexit; injection Hexit as <-.
  all: try (right; split; reflexivity).
  all: left; split; [reflexivity | eauto].
Qed.

Lemma boot_exit_leaves_panel_witness :
  (Boot.panelActs (fst (Boot.process Boot.homeless)) = []
   /\ (Boot.flagParse Boot.homeless = inr 1
       \/ exists f, Boot.flagParse Boot.homeless = inl f
                    /\ Boot.showVersion f = true /\ 1 = 0))
  \/ (Boot.panelActs (fst (Boot.process Boot.homeless)) = [Boot.PanelInit 17 25 8 24]
      /\ 1 = 1).
Proof. apply (boot_exit_leaves_panel Boot.homeless 1). reflexivity. Defined.

(** The key given to every cycle is the key of the config file when that
    is not empty, else the TRMNL_API_KEY of the environment when that is
    not empty, else what is typed in. The key is asked for, and written
    back, only in the last case; it is written with mode 0600 to the file
    that was read. *)
Theorem boot_api_key_source (h : Boot.Host) (tmpDir apiKey : string)
    (options : AppOptions) :
  snd (Boot.process h) = Boot.Loop tmpDir apiKey options ->
  exists home,
    Boot.userHomeDir h = Boot.Fine home
    /\ let configDir := Boot.join h home ".trmnl" in
       let stored := Boot.storedKey h configDir in
       let env := Boot.getenv h "TRMNL_API_KEY" in
       apiKey = (if String.eqb stored EmptyString
                 then if String.eqb env EmptyString then Boot.scanln h else env
                 else stored)
       /\ (Boot.Scanln ∈ fst (Boot.process h)
           <-> stored = EmptyString /\ env = EmptyString)
       /\ (forall path data perm,
             Boot.WriteFile path data perm ∈ fst (Boot.process h) ->
             stored = EmptyString /\ env = EmptyString
             /\ path = Boot.join h configDir "config.json"
             /\ perm = 384
             /\ Boot.marshalIndent h {| Boot.APIKey := apiKey |} = Boot.Fine data
             /\ Boot.ReadFile path ∈ fst (Boot.process h)).
Proof.
  boot_cases.
  all: intros Hloop; try discriminate Hloop; injection Hloop as <- <- <-.
  all: eexists; split; [reflexivity |]; cbv zeta.
  all: repeat match goal with
              | H : Boot.readFile _ _ = _ |- _ => rewrite H
              end; cbn [fst Boot.APIKey].
  all: repeat match goal with
              | |- context [String.eqb ?a ?b] =>
                  destruct (String.eqb_spec a b); try contradiction
              end.
  all: split; [reflexivity |]; split;
    [ split;
      [ intros H; try (exfalso; not_among H); split; assumption
      | intros [H1 H2]; try contradiction; rewrite ?elem_of_cons; auto 10 ]
    | intros path data perm H;
      repeat (apply elem_of_cons in H as [H | H];
              [try discriminate H |]);
      try (apply elem_of_nil in H; contradiction) ].
  all: injection H as -> -> ->; repeat split; try assumption;
    rewrite ?elem_of_cons; auto 10.
Qed.

Lemma boot_api_key_source_witness :
  exists home,
    Boot.userHomeDir Boot.firstStart = Boot.Fine home
    /\ let configDir := Boot.join Boot.firstStart home ".trmnl" in
       let stored := Boot.storedKey Boot.firstStart configDir in
       let env := Boot.getenv Boot.firstStart "TRMNL_API_KEY" in
       "typed-key" = (if String.eqb stored EmptyString
                      then if String.eqb env EmptyString
                           then Boot.scanln Boot.firstStart else env
                      else stored)
       /\ (Boot.Scanln ∈ fst (Boot.process Boot.firstStart)
           <-> stored = EmptyString /\ env = EmptyString)
       /\ (forall path data perm,
             Boot.WriteFile path data perm ∈ fst (Boot.process Boot.firstStart) ->
             stored = EmptyString /\ env = EmptyString
             /\ path = Boot.join Boot.firstStart configDir "config.json"
             /\ perm = 384
             /\ Boot.marshalIndent Boot.firstStart {| Boot.APIKey := "typed-key" |}
                = Boot.Fine data
             /\ Boot.ReadFile path ∈ fst (Boot.process Boot.firstStart)).
Proof.
  apply (boot_api_key_source Boot.firstStart "/tmp/trmnl-display1" "typed-key"
           {| DarkMode := false; Verbose := true |}).
  reflexivity.
Defined.

(** On entering the loop the panel has been initialised once, on pins 17,
    25, 8 and 24, and then cleared once to white, 0xFF, and nothing else
    was asked of it. The options of every cycle are the flags: dark mode
    is -d, and verbose is -verbose unless -q, which overrides it; the
    working directory is the one [os.MkdirTemp] made. *)
Theorem boot_loop_entry (h : Boot.Host) (tmpDir apiKey : string) (options : AppOptions) :
  snd (Boot.process h) = Boot.Loop tmpDir apiKey options ->
  Boot.panelActs (fst (Boot.process h))
  = [Boot.PanelInit 17 25 8 24; Boot.PanelClear 255]
  /\ (exists f,
        Boot.flagParse h = inl f
        /\ DarkMode options = Boot.darkMode f
        /\ Verbose options = Boot.verbose f && negb (Boot.quiet f)
        /\ (Boot.quiet f = true -> Verbose options = false))
  /\ Boot.mkdirTemp h EmptyString "trmnl-display" = Boot.Fine tmpDir.
Proof.
  boot_cases.
  all: intros Hloop; try discriminate Hloop; injection Hloop as <- <- <-.
  all: split; [reflexivity |]; split; [| reflexivity].
  all: eexists; split; [reflexivity |]; cbn [DarkMode Verbose];
    repeat split; intros ->; apply andb_false_r.
Qed.

Lemma boot_loop_entry_witness :
  Boot.panelActs (fst (Boot.process Boot.firstStart))
  = [Boot.PanelInit 17 25 8 24; Boot.PanelClear 255]
  /\ (exists f,
        Boot.flagParse Boot.firstStart = inl f
        /\ DarkMode {| DarkMode := false; Verbose := true |} = Boot.darkMode f
        /\ Verbose {| DarkMode := false; Verbose := true |}
           = Boot.verbose f && negb (Boot.quiet f)
        /\ (Boot.quiet f = true ->
            Verbose {| DarkMode := false; Verbose := true |} = false))
  /\ Boot.mkdirTemp Boot.firstStart EmptyString "trmnl-display"
     = Boot.Fine "/tmp/trmnl-display1".
Proof.
  apply (boot_loop_entry Boot.firstStart "/tmp/trmnl-display1" "typed-key"
           {| DarkMode := false; Verbose := true |}).
  reflexivity.
Defined.

(** * The signal handler, where it is installed *)

(** After [setupSignalHandling], each of the three signals runs
    [cleanupDisplay] and ends the process with status 0: an initialised
    panel is put to sleep, whatever it was showing. *)
Theorem handler_puts_panel_to_sleep (p : Process) (s : signal) :
  panelState p <> Uninitialized ->
  panelState (deliver s (exec p setupSignalHandling)) = Asleep
  /\ ending (deliver s (exec p setupSignalHandling)) = Exited 0.
Proof.
  intros Hinit. destruct p as [panel n d e]. cbn [panelState] in Hinit.
  destruct s, panel; try contradiction; split; reflexivity.
Qed.

Lemma handler_puts_panel_to_sleep_witness :
  panelState (deliver SIGHUP (exec (run main) setupSignalHandling)) = Asleep
  /\ ending (deliver SIGHUP (exec (run main) setupSignalHandling)) = Exited 0.
Proof. apply (handler_puts_panel_to_sleep (run main) SIGHUP). discriminate. Defined.
